(** * Email open tracker: pixel and link tracking over a relational store

    A shallow embedding of [server.py]: the four SQLite tables, the
    statements the request handlers execute on them, and the Flask views
    themselves, followed by the properties of the tracking, registration
    and reporting operations.

    Conventions of the embedding.
    - A table is the list of its rows in rowid order; [INSERT] appends.
    - [CURRENT_TIMESTAMP] and [uuid.uuid4()] read the environment: the
      clock reading and the 16 random bytes are arguments of the views.
    - Rowids are unbounded naturals; failures of the storage engine itself
      (I/O errors, a full disk, an exhausted rowid range) are not modelled.
    - The body of a [POST] is what [request.json] makes of it: no JSON at
      all, JSON that does not parse, or a parsed value of any shape; the
      fields of an object are JSON values of any type.
    - Strings are byte strings. A floating-point number is kept by what
      the handlers observe of it.
    - Calls into Flask, Werkzeug, sqlite3, uuid and base64 are given the
      behaviour these libraries have on the arguments the source passes
      them. *)

From Stdlib Require Import NArith Lia Ascii String Sorted.
From stdpp Require Import base decidable option list strings pretty gmap.

Local Open Scope N_scope.

(** ** JSON values, exceptions *)

(** A floating-point number, by the two things the handlers observe of
    it: whether it is non-zero, and the text SQLite makes of it for a
    [TEXT] column ([NULL] for a NaN). *)
Record pyfloat := { fl_nonzero : bool; fl_text : option string }.

#[warnings="-register-all"]
Inductive json :=
  | JNull
  | JBool (b : bool)
  | JNum (n : nat)                 (* a non-negative integer *)
  | JNeg (p : positive)            (* the negative integer [-p] *)
  | JFloat (f : pyfloat)
  | JStr (s : string)
  | JList (l : list json)
  | JDict (d : list (string * json)).

(** The exceptions the handlers meet. The messages of the last four are
    left out. [ProgrammingError] is the [sqlite3] exception for a
    parameter of a type it cannot bind ([InterfaceError] before Python
    3.11). *)
Inductive exn :=
  | HTTPException (code : N)
  | TypeError (msg : string)
  | IntegrityError (msg : string)
  | AttributeError
  | ValueError
  | OverflowError
  | ProgrammingError.

Inductive result (A : Type) :=
  | Return (a : A)
  | Raise (e : exn).
Arguments Return {A} a.
Arguments Raise {A} e.

#[global] Instance result_ret : MRet result := λ A a, Return a.
#[global] Instance result_bind : MBind result := λ A B f r,
  match r with Return a => f a | Raise e => Raise e end.
#[global] Instance result_fmap : FMap result := λ A B f r,
  match r with Return a => Return (f a) | Raise e => Raise e end.

(** ** Python and library primitives used by the handlers *)

Module Py.

(** [s[:n]] *)
Definition prefix (n : nat) (s : string) : string := String.substring 0 n s.

(** [s.rstrip(c)] for a one-character [c]. *)
Fixpoint rstrip (c : ascii) (s : string) : string :=
  match s with
  | EmptyString => EmptyString
  | String a t =>
      match rstrip c t with
      | EmptyString => if Ascii.eqb a c then EmptyString else String a EmptyString
      | t' => String a t'
      end
  end.

(** [not v]: the values Python takes for false are [None], [False],
    zero, and the empty string, list and dict. *)
Definition not_ (v : json) : bool :=
  match v with
  | JNull => true
  | JBool b => negb b
  | JNum n => match n with O => true | S _ => false end
  | JNeg _ => false
  | JFloat f => negb (fl_nonzero f)
  | JStr s => match s with EmptyString => true | String _ _ => false end
  | JList l => match l with [] => true | _ :: _ => false end
  | JDict d => match d with [] => true | _ :: _ => false end
  end.

(** The items of a [dict], which holds a key once. *)
Fixpoint dict_get (d : list (string * json)) (k : string) (default : json)
    : json :=
  match d with
  | [] => default
  | (k', v) :: d' => if String.eqb k' k then v else dict_get d' k default
  end.

(** [data.get(k, default)]: a method of [dict] only; on [None], a number,
    a string or a list the attribute lookup fails. *)
Definition get (data : json) (k : string) (default : json) : result json :=
  match data with
  | JDict d => Return (dict_get d k default)
  | _ => Raise AttributeError
  end.

(** Value of a base64 alphabet character. *)
Definition b64_value (c : ascii) : option N :=
  let n := N_of_ascii c in
  if (65 <=? n) && (n <=? 90) then Some (n - 65)
  else if (97 <=? n) && (n <=? 122) then Some (n - 71)
  else if (48 <=? n) && (n <=? 57) then Some (n + 4)
  else if n =? 43 then Some 62
  else if n =? 47 then Some 63
  else None.

Definition b64_val (c : ascii) : N := default 0 (b64_value c).

Definition pad : ascii := "="%char.

(** [base64.b64decode]: four characters give three bytes; [=] padding
    shortens the last group. *)
Fixpoint b64decode (s : string) : list N :=
  match s with
  | String a (String b (String c (String d rest))) =>
      let w := b64_val a * 262144 + b64_val b * 4096
               + b64_val c * 64 + b64_val d in
      let b0 := w / 65536 in
      let b1 := (w / 256) mod 256 in
      let b2 := w mod 256 in
      if Ascii.eqb c pad then [b0]
      else if Ascii.eqb d pad then [b0; b1]
      else b0 :: b1 :: b2 :: b64decode rest
  | _ => []
  end.

(** [uuid.uuid4()]: 16 random bytes read as a 128-bit integer, with the
    variant bits set to [10] and the version nibble set to [4]. *)
Definition uuid4 (rnd : N) : N :=
  let i := rnd mod 2 ^ 128 in
  let i := N.ldiff i (N.shiftl 0xc000 48) in
  let i := N.lor i (N.shiftl 0x8000 48) in
  let i := N.ldiff i (N.shiftl 0xf000 64) in
  N.lor i (N.shiftl 4 76).

Definition hex_digit (d : N) : ascii :=
  match d with
  | 0 => "0" | 1 => "1" | 2 => "2" | 3 => "3" | 4 => "4" | 5 => "5"
  | 6 => "6" | 7 => "7" | 8 => "8" | 9 => "9" | 10 => "a" | 11 => "b"
  | 12 => "c" | 13 => "d" | 14 => "e" | _ => "f"
  end%char.

(** The [k] low hexadecimal digits of [n], most significant first. *)
Fixpoint hex_digits (k : nat) (n : N) : string :=
  match k with
  | O => EmptyString
  | S k' => String (hex_digit ((n / 16 ^ N.of_nat k') mod 16)) (hex_digits k' n)
  end.

(** [UUID.hex]: ['%032x' % self.int]. *)
Definition uuid_hex (u : N) : string := hex_digits 32 u.

Definition is_hex (c : ascii) : bool :=
  let n := N_of_ascii c in
  ((48 <=? n) && (n <=? 57)) || ((97 <=? n) && (n <=? 102)).

Definition chars (s : string) : list ascii := list_ascii_of_string s.

(** The characters [str.split] takes for white space, among the ASCII
    ones: tab to carriage return, the four separators, and the space. *)
Definition is_space (c : ascii) : bool :=
  let n := N_of_ascii c in
  ((9 <=? n) && (n <=? 13)) || ((28 <=? n) && (n <=? 32)).

Fixpoint skip (p : ascii → bool) (l : list ascii) : list ascii :=
  match l with
  | c :: l' => if p c then skip p l' else l
  | [] => []
  end.

(** [len(s.split(None, 1)) == 1]: one run of characters that are not
    white space, with or without white space around it. *)
Definition one_word (s : string) : bool :=
  match skip is_space (chars s) with
  | [] => false
  | l => forallb is_space (skip (λ c, negb (is_space c)) l)
  end.

(** [s.encode("ascii")] succeeds. *)
Definition is_ascii (s : string) : bool :=
  forallb (λ c, N_of_ascii c <? 128) (chars s).

End Py.
(** ** Data model: the four tables *)

Definition timestamp := string.

Record email_row := {
  e_id : string;
  e_recipient : string;
  e_subject : string;
  e_created_at : timestamp
}.

Record open_row := {
  o_id : N;
  o_email_id : string;
  o_opened_at : timestamp;
  o_ip_address : option string;
  o_user_agent : string;
  o_method : string
}.

Record link_row := {
  l_id : string;
  l_email_id : string;
  l_original_url : string;
  l_label : option string;
  l_created_at : timestamp
}.

Record click_row := {
  c_id : N;
  c_link_id : string;
  c_email_id : string;
  c_clicked_at : timestamp;
  c_ip_address : option string;
  c_user_agent : string
}.

(** The database file. [opens_seq] and [clicks_seq] are the entries of
    [sqlite_sequence] kept for the two [AUTOINCREMENT] tables: the largest
    rowid ever handed out. *)
Record store := {
  emails : list email_row;
  opens : list open_row;
  links : list link_row;
  clicks : list click_row;
  opens_seq : N;
  clicks_seq : N
}.

(** [init_db] on a fresh file: four empty tables. *)
Definition init_db : store :=
  {| emails := []; opens := []; links := []; clicks := [];
     opens_seq := 0; clicks_seq := 0 |}.

(** 1x1 transparent GIF *)
Definition PIXEL : list N :=
  Py.b64decode "R0lGODlhAQABAIAAAAAAAP///yH5BAEAAAAALAAAAAABAAEAAAIBRAA7".

(** ** HTTP layer: requests, responses *)

Inductive body :=
  | Json (j : json)                (* a [jsonify] payload *)
  | File (bytes : list N)          (* the content of a sent file *)
  | RedirectPage (location : string)
  | ErrorPage (code : N)
  | Html (page : string).

(** The value of a response header as the client receives it: a text, or
    the URI that Werkzeug's [iri_to_uri] makes of a redirect target, its
    percent-encoded form, which is not computed here. *)
Inductive header_value :=
  | Text (v : string)
  | UriOf (iri : string).

Record response := {
  status : N;
  mimetype : string;
  headers : list (string * header_value);
  payload : body
}.

(** The body of a request as [request.json] finds it. *)
Inductive req_body :=
  | NoJson                (* the content type is not a JSON one *)
  | BadJson               (* a JSON content type on data that does not parse *)
  | Parsed (j : json).    (* the value [json.loads] returns *)

(** What a view reads of the incoming request. Header names are the keys
    of [req_headers]. *)
Record request := {
  req_headers : gmap string string;
  req_remote_addr : option string;
  req_host_url : string;
  req_data : req_body
}.

Module Flask.

(** [request.headers.get(name, default)] *)
Definition headers_get (req : request) (name : string)
    (default : option string) : option string :=
  match req_headers req !! name with Some v => Some v | None => default end.

(** [abort(code)] raises the HTTP exception of that code. *)
Definition abort {A} (code : N) : result A := Raise (HTTPException code).

(** [request.json]: the parsed body. Without a JSON content type the
    request is refused as 415 Unsupported Media Type, and data that does
    not parse as 400 Bad Request. *)
Definition request_json (req : request) : result json :=
  match req_data req with
  | NoJson => abort 415
  | BadJson => abort 400
  | Parsed j => Return j
  end.

(** [jsonify(obj)], and [jsonify(obj), code] as a view's return value. *)
Definition jsonify (obj : json) : response :=
  {| status := 200; mimetype := "application/json"; headers := [];
     payload := Json obj |}.

Definition with_status (r : response) (code : N) : response :=
  {| status := code; mimetype := mimetype r; headers := headers r;
     payload := payload r |}.

(** Werkzeug refuses a header value that holds a carriage return or a
    line feed. *)
Definition has_newline (v : string) : bool :=
  existsb (λ c, (N_of_ascii c =? 10) || (N_of_ascii c =? 13)) (Py.chars v).

(** The [Location] sent for a redirect target: the target itself when it
    is ASCII and a single word, and the URI made of it otherwise. *)
Definition location_header (target : string) : header_value :=
  if Py.is_ascii target && Py.one_word target then Text target
  else UriOf target.

(** [redirect(location)]: a 302 with the [Location] header; setting the
    header raises [ValueError] on a target with a line break. *)
Definition redirect (location : string) : result response :=
  if has_newline location then Raise ValueError
  else
    Return {| status := 302; mimetype := "text/html";
              headers := [("Location", location_header location)];
              payload := RedirectPage location |}.

(** Keyword arguments as the views pass them. *)
Inductive kwarg :=
  | KStr (s : string)
  | KHeaders (h : list (string * header_value)).

(** The parameters [send_file] declares:
    [send_file(path_or_file, mimetype=None, as_attachment=False,
               download_name=None, conditional=True, etag=True,
               last_modified=None, max_age=None)]. *)
Definition send_file_params : list string :=
  ["path_or_file"; "mimetype"; "as_attachment"; "download_name";
   "conditional"; "etag"; "last_modified"; "max_age"].

Definition kw_str (kwargs : list (string * kwarg)) (name default : string)
    : string :=
  match list_find (λ kw, kw.1 = name) kwargs with
  | Some (_, (_, KStr s)) => s
  | _ => default
  end.

(** [send_file(file, **kwargs)]. Python binds the keywords to the
    declared parameters before the body runs; one that names no
    parameter raises [TypeError]. Otherwise the file is sent with the
    given mimetype (the validators Flask derives from [etag] and
    [max_age] are left out). *)
Definition send_file (file : list N) (kwargs : list (string * kwarg))
    : result response :=
  match list_find (λ kw, kw.1 ∉ send_file_params) kwargs with
  | Some (_, (name, _)) =>
      Raise (TypeError
        ("send_file() got an unexpected keyword argument '" +:+ name +:+ "'"))
  | None =>
      Return {| status := 200;
                mimetype := kw_str kwargs "mimetype" "application/octet-stream";
                headers := []; payload := File file |}
  end.

(** What the client receives: the view's response, the page of an HTTP
    exception, or a 500 for any other exception. *)
Definition finalize (r : result response) : response :=
  match r with
  | Return resp => resp
  | Raise (HTTPException code) =>
      {| status := code; mimetype := "text/html"; headers := [];
         payload := ErrorPage code |}
  | Raise _ =>
      {| status := 500; mimetype := "text/html"; headers := [];
         payload := ErrorPage 500 |}
  end.

End Flask.

(** ** The SQLite connection and the statements the views execute *)

Module Sql.

(** A connection opened on the database file: statements work on
    [pending]; [commit] makes it the file's content; a connection that is
    closed, or dropped by an exception, leaves the file at [committed]. *)
Record conn := { committed : store; pending : store }.

Definition get_db (s : store) : conn := {| committed := s; pending := s |}.
Definition commit (db : conn) : conn :=
  {| committed := pending db; pending := pending db |}.
Definition close (db : conn) : store := committed db.

Definition execute (f : store → store) (db : conn) : conn :=
  {| committed := committed db; pending := f (pending db) |}.

(** [cursor.fetchone()] *)
Definition fetchone {A} (rows : list A) : option A := head rows.

(** A Python value bound to a [?] that is stored in, or compared with, a
    [TEXT] column: [None] is [NULL]; a string is itself; an integer (a
    [bool] is one) or a float is bound as a number and turned into its
    text by the column's affinity; an integer beyond 64 bits and a list
    or dict are refused by [sqlite3] before the statement runs. *)
Definition bind (v : json) : result (option string) :=
  match v with
  | JNull => Return None
  | JBool b => Return (Some (if b then "1" else "0"))
  | JNum n =>
      if N.of_nat n <? 2 ^ 63 then Return (Some (pretty (N.of_nat n)))
      else Raise OverflowError
  | JNeg p =>
      if N.pos p <=? 2 ^ 63 then Return (Some ("-" +:+ pretty (N.pos p)))
      else Raise OverflowError
  | JFloat f => Return (fl_text f)
  | JStr s => Return (Some s)
  | JList _ | JDict _ => Raise ProgrammingError
  end.

(** [SELECT * FROM emails WHERE id = ?] with a string for [?] *)
Definition select_email (id : string) (db : conn) : list email_row :=
  filter (λ e, e_id e = id) (emails (pending db)).

(** The same statement with any value for [?]: [NULL] equals no id. *)
Definition select_email_bound (id : json) (db : conn)
    : result (list email_row) :=
  id ← bind id;
  Return (match id with Some id => select_email id db | None => [] end).

(** [SELECT * FROM links WHERE id = ?] *)
Definition select_link (id : string) (db : conn) : list link_row :=
  filter (λ l, l_id l = id) (links (pending db)).

(** [INSERT INTO opens (email_id, ip_address, user_agent, method)]:
    [id] is the next [AUTOINCREMENT] value, one more than the largest
    rowid the table ever used, and [opened_at] the clock. *)
Definition insert_open (now : timestamp) (email_id : string)
    (ip : option string) (ua method : string) (s : store) : store :=
  let id := opens_seq s + 1 in
  {| emails := emails s;
     opens := opens s ++
       [{| o_id := id; o_email_id := email_id; o_opened_at := now;
           o_ip_address := ip; o_user_agent := ua; o_method := method |}];
     links := links s; clicks := clicks s;
     opens_seq := id; clicks_seq := clicks_seq s |}.

(** [INSERT INTO clicks (link_id, email_id, ip_address, user_agent)] *)
Definition insert_click (now : timestamp) (link_id email_id : string)
    (ip : option string) (ua : string) (s : store) : store :=
  let id := clicks_seq s + 1 in
  {| emails := emails s; opens := opens s; links := links s;
     clicks := clicks s ++
       [{| c_id := id; c_link_id := link_id; c_email_id := email_id;
           c_clicked_at := now; c_ip_address := ip; c_user_agent := ua |}];
     opens_seq := opens_seq s; clicks_seq := id |}.

(** The [emails] table with one more row, stamped by the clock. *)
Definition add_email (now : timestamp) (id recipient subject : string)
    (s : store) : store :=
  {| emails := emails s ++
       [{| e_id := id; e_recipient := recipient; e_subject := subject;
           e_created_at := now |}];
     opens := opens s; links := links s; clicks := clicks s;
     opens_seq := opens_seq s; clicks_seq := clicks_seq s |}.

Definition add_link (now : timestamp) (id email_id url : string)
    (label : option string) (s : store) : store :=
  {| emails := emails s; opens := opens s;
     links := links s ++
       [{| l_id := id; l_email_id := email_id; l_original_url := url;
           l_label := label; l_created_at := now |}];
     clicks := clicks s;
     opens_seq := opens_seq s; clicks_seq := clicks_seq s |}.

(** [INSERT INTO emails (id, recipient, subject) VALUES (?, ?, ?)]. The
    parameters are bound in their order. Of the row, SQLite checks the
    [NOT NULL] columns first and then the primary key [id]: a second row
    with the same id violates it. *)
Definition insert_email (now : timestamp) (id : string)
    (recipient subject : json) (db : conn) : result conn :=
  recipient ← bind recipient;
  subject ← bind subject;
  match recipient, subject with
  | None, _ =>
      Raise (IntegrityError "NOT NULL constraint failed: emails.recipient")
  | Some _, None =>
      Raise (IntegrityError "NOT NULL constraint failed: emails.subject")
  | Some recipient, Some subject =>
      if decide (id ∈ e_id <$> emails (pending db)) then
        Raise (IntegrityError "UNIQUE constraint failed: emails.id")
      else
        Return (execute (add_email now id recipient subject) db)
  end.

(** [INSERT INTO links (id, email_id, original_url, label)
     VALUES (?, ?, ?, ?)]. [email_id] and [original_url] are [NOT NULL],
    [label] is not. The foreign key on [email_id] is declared but SQLite
    does not enforce it unless asked to; the primary key is enforced. *)
Definition insert_link (now : timestamp) (id : string)
    (email_id url label : json) (db : conn) : result conn :=
  email_id ← bind email_id;
  url ← bind url;
  label ← bind label;
  match email_id, url with
  | None, _ =>
      Raise (IntegrityError "NOT NULL constraint failed: links.email_id")
  | Some _, None =>
      Raise (IntegrityError "NOT NULL constraint failed: links.original_url")
  | Some email_id, Some url =>
      if decide (id ∈ l_id <$> links (pending db)) then
        Raise (IntegrityError "UNIQUE constraint failed: links.id")
      else
        Return (execute (add_link now id email_id url label) db)
  end.

(** [DELETE FROM clicks WHERE email_id = ?] and its three siblings. *)
Definition delete_clicks (email_id : string) (s : store) : store :=
  {| emails := emails s; opens := opens s; links := links s;
     clicks := filter (λ c, c_email_id c ≠ email_id) (clicks s);
     opens_seq := opens_seq s; clicks_seq := clicks_seq s |}.

Definition delete_opens (email_id : string) (s : store) : store :=
  {| emails := emails s;
     opens := filter (λ o, o_email_id o ≠ email_id) (opens s);
     links := links s; clicks := clicks s;
     opens_seq := opens_seq s; clicks_seq := clicks_seq s |}.

Definition delete_links (email_id : string) (s : store) : store :=
  {| emails := emails s; opens := opens s;
     links := filter (λ l, l_email_id l ≠ email_id) (links s);
     clicks := clicks s;
     opens_seq := opens_seq s; clicks_seq := clicks_seq s |}.

Definition delete_emails (email_id : string) (s : store) : store :=
  {| emails := filter (λ e, e_id e ≠ email_id) (emails s);
     opens := opens s; links := links s; clicks := clicks s;
     opens_seq := opens_seq s; clicks_seq := clicks_seq s |}.

(** *** Query operators *)

(** The right side of a [LEFT JOIN] for one left row: its matches, or a
    single all-[NULL] row when there is none. *)
Definition nullable {B} (matches : list B) : list (option B) :=
  match matches with [] => [None] | _ => Some <$> matches end.

(** [l LEFT JOIN r ON kl(l) = kr(r)] *)
Definition left_join {A B K} `{EqDecision K} (kl : A → K) (kr : B → K)
    (l : list A) (r : list B) : list (A * option B) :=
  a ← l; pair a <$> nullable (filter (λ b, kl a = kr b) r).

(** [l JOIN r ON kl(l) = kr(r)]: the pairs that match. *)
Definition inner_join {A B K} `{EqDecision K} (kl : A → K) (kr : B → K)
    (l : list A) (r : list B) : list (A * B) :=
  a ← l; pair a <$> filter (λ b, kl a = kr b) r.

(** [GROUP BY]: one group per distinct key, holding the rows of that key. *)
Definition group_by {A K} `{EqDecision K} (key : A → K) (rows : list A)
    : list (K * list A) :=
  (λ k, (k, filter (λ r, key r = k) rows)) <$> remove_dups (key <$> rows).

(** [COUNT(DISTINCT x)]: [NULL]s are not counted. *)
Definition count_distinct {K} `{EqDecision K} (xs : list (option K)) : nat :=
  length (remove_dups (omap id xs)).

Definition ts_max (a b : timestamp) : timestamp :=
  if String.leb a b then b else a.

(** [MAX(x)] over text values: [NULL] when no value is non-[NULL]. *)
Definition max_ (xs : list (option timestamp)) : option timestamp :=
  match omap id xs with
  | [] => None
  | x :: rest => Some (foldl ts_max x rest)
  end.

(** [ORDER BY]: a stable insertion sort on the key, compared as text. *)
Fixpoint insert_by {A} (le : A → A → bool) (x : A) (l : list A) : list A :=
  match l with
  | [] => [x]
  | y :: l' => if le x y then x :: l else y :: insert_by le x l'
  end.

Definition sort_by {A} (le : A → A → bool) (l : list A) : list A :=
  foldr (insert_by le) [] l.

Definition asc {A} (key : A → timestamp) (a b : A) : bool :=
  String.leb (key a) (key b).
Definition desc {A} (key : A → timestamp) (a b : A) : bool :=
  String.leb (key b) (key a).

End Sql.

(** ** The views *)

Import Sql Flask.

Definition view := store → store * result response.

(** A call of a view that may raise: the exception ends the request, and
    the database file stays at [s], what was committed; a connection that
    is open then is dropped without [close]. *)
Definition try_ {A} (s : store) (r : result A)
    (k : A → store * result response) : store * result response :=
  match r with
  | Return a => k a
  | Raise e => (s, Raise e)
  end.

Notation "x ←[ s ] r ; k" := (try_ s r (λ x, k))
  (at level 20, r at level 100, k at level 200, only parsing).

(** [request.headers.get("X-Forwarded-For", request.remote_addr)] *)
Definition client_ip (req : request) : option string :=
  headers_get req "X-Forwarded-For" (req_remote_addr req).

(** [request.headers.get("User-Agent", <empty string>)] *)
Definition user_agent (req : request) : string :=
  default EmptyString (headers_get req "User-Agent" (Some EmptyString)).

Definition no_cache_headers : list (string * header_value) :=
  [("Cache-Control", Text "no-store, no-cache, must-revalidate, max-age=0");
   ("Pragma", Text "no-cache");
   ("Expires", Text "0")].

(** [GET /p/<email_id>.gif] *)
Definition track_open (req : request) (now : timestamp) (email_id : string)
    : view := λ s,
  let db := get_db s in
  let email := fetchone (select_email email_id db) in
  let db :=
    if email is Some _ then
      commit (execute
        (insert_open now email_id (client_ip req) (user_agent req) "pixel") db)
    else db in
  let s' := close db in
  (s', send_file PIXEL
         [("mimetype", KStr "image/gif");
          ("headers", KHeaders no_cache_headers)]).

(** The keyword arguments of that call. *)
Definition pixel_kwargs : list (string * kwarg) :=
  [("mimetype", KStr "image/gif"); ("headers", KHeaders no_cache_headers)].

(** [GET /l/<link_id>] *)
Definition track_click (req : request) (now : timestamp) (link_id : string)
    : view := λ s,
  let db := get_db s in
  match fetchone (select_link link_id db) with
  | None => (close db, abort 404)
  | Some link =>
      let db := execute
        (insert_click now link_id (l_email_id link)
           (client_ip req) (user_agent req)) db in
      let db := execute
        (insert_open now (l_email_id link)
           (client_ip req) (user_agent req) "link") db in
      let db := commit db in
      let original_url := l_original_url link in
      (close db, redirect original_url)
  end.

Definition dq : string := String (ascii_of_N 34) EmptyString.

(** [f"{base_url}/p/{email_id}.gif"] and the image tag built around it. *)
Definition pixel_url_of (base_url email_id : string) : string :=
  base_url +:+ "/p/" +:+ email_id +:+ ".gif".

Definition img_tag_of (pixel_url : string) : string :=
  "<img src=" +:+ dq +:+ pixel_url +:+ dq +:+ " width=" +:+ dq +:+ "1" +:+ dq
  +:+ " height=" +:+ dq +:+ "1" +:+ dq
  +:+ " style=" +:+ dq +:+ "display:none" +:+ dq
  +:+ " alt=" +:+ dq +:+ dq +:+ " />".

Definition tracked_url_of (base_url link_id : string) : string :=
  base_url +:+ "/l/" +:+ link_id.

Definition error_json (msg : string) : json := JDict [("error", JStr msg)].

(** [uuid.uuid4().hex[:12]] and [uuid.uuid4().hex[:10]] on the random
    bytes [rnd]. *)
Definition new_email_id (rnd : N) : string :=
  Py.prefix 12 (Py.uuid_hex (Py.uuid4 rnd)).
Definition new_link_id (rnd : N) : string :=
  Py.prefix 10 (Py.uuid_hex (Py.uuid4 rnd)).

(** [POST /api/track] *)
Definition create_tracked_email (req : request) (now : timestamp) (rnd : N)
    : view := λ s,
  data ←[s] request_json req;
  recipient ←[s] Py.get data "recipient" (JStr EmptyString);
  subject ←[s] Py.get data "subject" (JStr EmptyString);
  if Py.not_ recipient || Py.not_ subject then
    (s, Return (with_status
                  (jsonify (error_json "recipient and subject are required"))
                  400))
  else
    let email_id := new_email_id rnd in
    let db := get_db s in
    db ←[committed db] insert_email now email_id recipient subject db;
    let db := commit db in
    let s' := close db in
    let base_url := Py.rstrip "/" (req_host_url req) in
    let pixel_url := pixel_url_of base_url email_id in
    let img_tag := img_tag_of pixel_url in
    (s', Return (jsonify (JDict
           [("email_id", JStr email_id);
            ("pixel_url", JStr pixel_url);
            ("img_tag", JStr img_tag)]))).

(** [POST /api/link] *)
Definition create_tracked_link (req : request) (now : timestamp) (rnd : N)
    : view := λ s,
  data ←[s] request_json req;
  email_id ←[s] Py.get data "email_id" (JStr EmptyString);
  original_url ←[s] Py.get data "url" (JStr EmptyString);
  label ←[s] Py.get data "label" (JStr EmptyString);
  if Py.not_ email_id || Py.not_ original_url then
    (s, Return (with_status
                  (jsonify (error_json "email_id and url are required")) 400))
  else
    let link_id := new_link_id rnd in
    let db := get_db s in
    rows ←[committed db] select_email_bound email_id db;
    let email := fetchone rows in
    if email is Some _ then
      db ←[committed db]
        insert_link now link_id email_id original_url label db;
      let db := commit db in
      let s' := close db in
      let base_url := Py.rstrip "/" (req_host_url req) in
      let tracked_url := tracked_url_of base_url link_id in
      (s', Return (jsonify (JDict
             [("link_id", JStr link_id);
              ("tracked_url", JStr tracked_url);
              ("original_url", original_url)])))
    else
      (close db, Return (with_status
                           (jsonify (error_json "email not found")) 404)).

(** A row of the aggregate query of [list_emails]. *)
Record email_stats := {
  s_id : string;
  s_recipient : string;
  s_subject : string;
  s_created_at : timestamp;
  s_open_count : nat;
  s_last_opened : option timestamp;
  s_click_count : nat;
  s_last_clicked : option timestamp
}.

Abbreviation joined_row := (email_row * option open_row * option click_row)%type.

(** [FROM emails e LEFT JOIN opens o ON e.id = o.email_id
                   LEFT JOIN clicks c ON e.id = c.email_id] *)
Definition emails_opens_clicks (s : store) : list joined_row :=
  left_join (λ eo : email_row * option open_row, e_id eo.1) c_email_id
    (left_join e_id o_email_id (emails s) (opens s))
    (clicks s).

(** The joined rows of one email: its opens (or one [NULL]) times its
    clicks (or one [NULL]). *)
Definition joined_for (s : store) (e : email_row) : list joined_row :=
  eo ← pair e <$> nullable (filter (λ o, e_id e = o_email_id o) (opens s));
  pair eo <$> nullable (filter (λ c, e_id eo.1 = c_email_id c) (clicks s)).

(** Columns of a joined row; a column of an all-[NULL] side is [NULL]. *)
Definition col_o {V} (f : open_row → V) (r : joined_row) : option V := f <$> r.1.2.
Definition col_c {V} (f : click_row → V) (r : joined_row) : option V := f <$> r.2.

(** The [SELECT] list evaluated on one group: [e.*] is read off a row of
    the group, the four aggregates range over all of its rows. *)
Definition aggregate (g : string * list joined_row) : option email_stats :=
  r ← head g.2;
  Some {| s_id := e_id r.1.1;
          s_recipient := e_recipient r.1.1;
          s_subject := e_subject r.1.1;
          s_created_at := e_created_at r.1.1;
          s_open_count := count_distinct (col_o o_id <$> g.2);
          s_last_opened := max_ (col_o o_opened_at <$> g.2);
          s_click_count := count_distinct (col_c c_id <$> g.2);
          s_last_clicked := max_ (col_c c_clicked_at <$> g.2) |}.

(** The result row of the group of email [e]. *)
Definition stats_of (s : store) (e : email_row) : email_stats :=
  let g := joined_for s e in
  {| s_id := e_id e;
     s_recipient := e_recipient e;
     s_subject := e_subject e;
     s_created_at := e_created_at e;
     s_open_count := count_distinct (col_o o_id <$> g);
     s_last_opened := max_ (col_o o_opened_at <$> g);
     s_click_count := count_distinct (col_c c_id <$> g);
     s_last_clicked := max_ (col_c c_clicked_at <$> g) |}.

(** The groups of [GROUP BY e.id] come in the order of the primary key of
    [emails], which SQLite walks to form them; [ORDER BY e.created_at
    DESC] then sorts the result rows, keeping that order among rows with
    the same [created_at]. *)
Definition list_emails_query (s : store) : list email_stats :=
  sort_by (desc s_created_at)
    (omap aggregate
       (sort_by (asc fst)
          (group_by (λ r : joined_row, e_id r.1.1) (emails_opens_clicks s)))).

Definition json_opt (o : option string) : json :=
  match o with Some v => JStr v | None => JNull end.

Definition stats_json (e : email_stats) : json :=
  JDict [("id", JStr (s_id e));
         ("recipient", JStr (s_recipient e));
         ("subject", JStr (s_subject e));
         ("created_at", JStr (s_created_at e));
         ("open_count", JNum (s_open_count e));
         ("last_opened", json_opt (s_last_opened e));
         ("click_count", JNum (s_click_count e));
         ("last_clicked", json_opt (s_last_clicked e))].

(** [GET /api/emails] *)
Definition list_emails : view := λ s,
  let db := get_db s in
  let emails := list_emails_query (pending db) in
  (close db, Return (jsonify (JList (stats_json <$> emails)))).

(** The three queries of [get_email_detail]. *)
Definition detail_opens (email_id : string) (s : store) : list open_row :=
  sort_by (desc o_opened_at) (filter (λ o, o_email_id o = email_id) (opens s)).

Definition detail_links (email_id : string) (s : store) : list link_row :=
  sort_by (asc l_created_at) (filter (λ l, l_email_id l = email_id) (links s)).

Definition detail_clicks (email_id : string) (s : store)
    : list (click_row * link_row) :=
  sort_by (desc (λ cl, c_clicked_at cl.1))
    (filter (λ cl, c_email_id cl.1 = email_id)
       (inner_join c_link_id l_id (clicks s) (links s))).

Definition open_json (o : open_row) : json :=
  JDict [("opened_at", JStr (o_opened_at o));
         ("ip_address", json_opt (o_ip_address o));
         ("user_agent", JStr (o_user_agent o));
         ("method", JStr (o_method o))].

Definition link_json (l : link_row) : json :=
  JDict [("id", JStr (l_id l));
         ("original_url", JStr (l_original_url l));
         ("label", json_opt (l_label l))].

Definition click_json (cl : click_row * link_row) : json :=
  JDict [("clicked_at", JStr (c_clicked_at cl.1));
         ("ip_address", json_opt (c_ip_address cl.1));
         ("original_url", JStr (l_original_url cl.2));
         ("label", json_opt (l_label cl.2))].

Definition detail_json (opens : list open_row) (links : list link_row)
    (clicks : list (click_row * link_row)) : json :=
  JDict [("opens", JList (open_json <$> opens));
         ("links", JList (link_json <$> links));
         ("clicks", JList (click_json <$> clicks))].

(** [GET /api/emails/<email_id>] *)
Definition get_email_detail (email_id : string) : view := λ s,
  let db := get_db s in
  let opens := detail_opens email_id (pending db) in
  let links := detail_links email_id (pending db) in
  let clicks := detail_clicks email_id (pending db) in
  (close db, Return (jsonify (detail_json opens links clicks))).

(** [DELETE /api/emails/<email_id>] *)
Definition delete_email (email_id : string) : view := λ s,
  let db := get_db s in
  let db := execute (delete_clicks email_id) db in
  let db := execute (delete_opens email_id) db in
  let db := execute (delete_links email_id) db in
  let db := execute (delete_emails email_id) db in
  let db := commit db in
  (close db, Return (jsonify (JDict [("success", JBool true)]))).

(** ** Store-level notions used by the properties *)

(** The rows of [opens] and of [clicks] that reference an email. *)
Definition opens_of (s : store) (email_id : string) : list open_row :=
  filter (λ o, o_email_id o = email_id) (opens s).

Definition clicks_of (s : store) (email_id : string) : list click_row :=
  filter (λ c, c_email_id c = email_id) (clicks s).

Definition open_count (s : store) (email_id : string) : nat :=
  length (opens_of s email_id).

Definition click_count (s : store) (email_id : string) : nat :=
  length (clicks_of s email_id).

Definition email_ids (s : store) : list string := e_id <$> emails s.
Definition link_ids (s : store) : list string := l_id <$> links s.

(** What the schema makes SQLite enforce: the four primary keys, and the
    [AUTOINCREMENT] counters dominating the rowids in use. *)
Record schema_ok (s : store) : Prop := {
  emails_pk : NoDup (e_id <$> emails s);
  links_pk : NoDup (l_id <$> links s);
  opens_pk : NoDup (o_id <$> opens s);
  clicks_pk : NoDup (c_id <$> clicks s);
  opens_seq_ge : Forall (λ o, o_id o ≤ opens_seq s) (opens s);
  clicks_seq_ge : Forall (λ c, c_id c ≤ clicks_seq s) (clicks s)
}.

(** Referential integrity, which the schema declares but SQLite leaves to
    the program: links and opens point at an email of the store, and a
    click points at a link of the store that carries the click's email. *)
Record refs_ok (s : store) : Prop := {
  links_ref : Forall (λ l, l_email_id l ∈ email_ids s) (links s);
  opens_ref : Forall (λ o, o_email_id o ∈ email_ids s) (opens s);
  clicks_ref :
    Forall (λ c, Exists (λ l, l_id l = c_link_id c
                              ∧ l_email_id l = c_email_id c) (links s))
           (clicks s)
}.

(** One request served: the store before and after. *)
Inductive step : store → store → Prop :=
  | step_track_open req now email_id s :
      step s (track_open req now email_id s).1
  | step_track_click req now link_id s :
      step s (track_click req now link_id s).1
  | step_create_tracked_email req now rnd s :
      step s (create_tracked_email req now rnd s).1
  | step_create_tracked_link req now rnd s :
      step s (create_tracked_link req now rnd s).1
  | step_list_emails s :
      step s (list_emails s).1
  | step_get_email_detail email_id s :
      step s (get_email_detail email_id s).1
  | step_delete_email email_id s :
      step s (delete_email email_id s).1.

(** The stores the program can be in: any number of requests served on
    the database [init_db] created. *)
Definition reachable (s : store) : Prop := rtc step init_db s.

(** The payloads of the two registration views. *)
Definition created_email_json (req : request) (id : string) : json :=
  let pixel_url := pixel_url_of (Py.rstrip "/" (req_host_url req)) id in
  JDict [("email_id", JStr id);
         ("pixel_url", JStr pixel_url);
         ("img_tag", JStr (img_tag_of pixel_url))].

Definition created_link_json (req : request) (id : string) (url : json)
    : json :=
  JDict [("link_id", JStr id);
         ("tracked_url",
          JStr (tracked_url_of (Py.rstrip "/" (req_host_url req)) id));
         ("original_url", url)].

(** The four [DELETE]s of [delete_email], in the order it runs them. *)
Definition purge (email_id : string) (s : store) : store :=
  delete_emails email_id
    (delete_links email_id (delete_opens email_id (delete_clicks email_id s))).

(** What [data.get(name, <empty string>)] reads when the body is a JSON
    object. *)
Definition field_value (req : request) (name : string) : option json :=
  match req_data req with
  | Parsed (JDict d) => Some (Py.dict_get d name (JStr EmptyString))
  | _ => None
  end.

(** A string field of a JSON object body. It reads as empty when the
    field is absent, when it is not a string, and when the body is not an
    object. *)
Definition field (req : request) (name : string) : string :=
  match field_value req name with
  | Some (JStr v) => v
  | _ => EmptyString
  end.

Definition has_email (s : store) (email_id : string) : Prop :=
  email_id ∈ email_ids s.

Definition response_of (v : store * result response) : response :=
  finalize v.2.

Definition links_of (s : store) (email_id : string) : list link_row :=
  filter (λ l, l_email_id l = email_id) (links s).

Definition store_inv (s : store) : Prop := schema_ok s ∧ refs_ok s.

Definition hex_string (n : nat) (id : string) : Prop :=
  String.length id = n ∧ Forall (λ c, Py.is_hex c = true) (Py.chars id).

(** *** The contracts of the handlers in the specification's words *)




(** Identifier generator: 12 and 10 hexadecimal characters, and never a
    string that is already a primary key of the target table. *)
Definition generator_spec (rnd : N) (s : store) : Prop :=
  hex_string 12 (new_email_id rnd) ∧ hex_string 10 (new_link_id rnd)
  ∧ (new_email_id rnd ∉ email_ids s) ∧ (new_link_id rnd ∉ link_ids s).

(** *** Sample requests and stores *)

Definition sample_request_with (data : req_body) : request :=
  {| req_headers := {[ "User-Agent" := "Mozilla/5.0" ]};
     req_remote_addr := Some "203.0.113.7";
     req_host_url := "https://track.example/";
     req_data := data |}.

(** A request whose body is a JSON object with the given string fields. *)
Definition sample_request (fields : list (string * string)) : request :=
  sample_request_with (Parsed (JDict (prod_map id JStr <$> fields))).

(** One registered email, [000000000000]. *)
Definition store_email : store :=
  (create_tracked_email
     (sample_request [("recipient", "a@x.com"); ("subject", "Hi")])
     "2024-05-01 10:00:00" 0 init_db).1.

(** ... with one tracked link, [0000000000]. *)
Definition store_link : store :=
  (create_tracked_link
     (sample_request [("email_id", "000000000000"); ("url", "https://x.com")])
     "2024-05-01 10:00:05" 0 store_email).1.

(** ... after the link was followed once. *)
Definition store_click : store :=
  (track_click (sample_request []) "2024-05-01 10:01:00" "0000000000"
     store_link).1.

Definition sample_link : link_row :=
  {| l_id := "0000000000"; l_email_id := "000000000000";
     l_original_url := "https://x.com"; l_label := Some EmptyString;
     l_created_at := "2024-05-01 10:00:05" |}.



Definition sample_click : click_row :=
  {| c_id := 1; c_link_id := "0000000000"; c_email_id := "000000000000";
     c_clicked_at := "2024-05-01 10:01:00";
     c_ip_address := Some "203.0.113.7"; c_user_agent := "Mozilla/5.0" |}.

(** ** Further notions: growth of tables, companion opens, the dashboard *)

(** A table after a request that added at most one row to it. *)
Definition grown {A} (l l' : list A) : Prop := l' = l ∨ ∃ x, l' = l ++ [x].

Definition appends_only (s s' : store) : Prop :=
  grown (emails s) (emails s') ∧ grown (opens s) (opens s')
  ∧ grown (links s) (links s') ∧ grown (clicks s) (clicks s').

(** The opens of an email that were recorded by the link handler. *)
Definition link_opens_of (s : store) (email_id : string) : list open_row :=
  filter (λ o, o_email_id o = email_id ∧ o_method o = "link") (opens s).

(** Every click has its companion open: the link handler inserts both in
    one transaction and the delete view removes both by the same email
    id. *)
Definition companions (s : store) : Prop :=
  ∀ e, length (link_opens_of s e) = click_count s e.

(** Between two stores, the [AUTOINCREMENT] counters did not go back and
    every Open or Click row of the later store is a row of the earlier one
    or has an id above the earlier counter. *)
Definition ids_advance (s s' : store) : Prop :=
  opens_seq s ≤ opens_seq s' ∧ clicks_seq s ≤ clicks_seq s'
  ∧ (∀ o, o ∈ opens s' → o ∈ opens s ∨ opens_seq s < o_id o)
  ∧ (∀ c, c ∈ clicks s' → c ∈ clicks s ∨ clicks_seq s < c_id c).

(** An entry of the list view that counts as engaged on the dashboard. *)
Definition active (r : email_stats) : Prop :=
  (0 < s_open_count r ∨ 0 < s_click_count r)%nat.


(** [s.endswith(c)] and [c * n], used to describe what [rstrip] keeps. *)
Fixpoint ends_with (c : ascii) (s : string) : bool :=
  match s with
  | EmptyString => false
  | String a EmptyString => Ascii.eqb a c
  | String _ t => ends_with c t
  end.

Fixpoint repeat_char (c : ascii) (n : nat) : string :=
  match n with O => EmptyString | S n' => String c (repeat_char c n') end.

(** The figures [loadEmails] computes in the dashboard script from the
    array [GET /api/emails] returns. The counts are the numbers of the
    payload; on a field that is not a number the model gives no result.
    The open rate, a rounded floating-point quotient, is left out. *)
Module Dashboard.

(** [o[k]] on a parsed JSON object. *)
Definition prop (k : string) (o : json) : option json :=
  match o with
  | JDict d => (λ kv : nat * (string * json), kv.2.2) <$> list_find (λ kv, kv.1 = k) d
  | _ => None
  end.

Definition number (k : string) (o : json) : option nat :=
  match prop k o with Some (JNum n) => Some n | _ => None end.

(** [emails.reduce((s, e) => s + e[k], 0)] *)
Definition total (k : string) (emails : list json) : option nat :=
  foldl (λ s e, a ← s; n ← number k e; Some (a + n)%nat) (Some 0%nat) emails.

(** [e.open_count > 0 || e.click_count > 0] *)
Definition is_engaged (e : json) : option bool :=
  o ← number "open_count" e;
  if Nat.ltb 0 o then Some true
  else c ← number "click_count" e; Some (Nat.ltb 0 c).

(** [emails.filter(e => ...).length] *)
Definition count_engaged (emails : list json) : option nat :=
  foldr (λ e n, b ← is_engaged e; m ← n;
                Some (if b : bool then S m else m)) (Some 0%nat) emails.

Record summary := {
  totalEmails : nat;
  totalOpens : nat;
  totalClicks : nat;
  engaged : nat
}.

(** [const emails = await res.json()] and the four figures. *)
Definition loadEmails (res : response) : option summary :=
  match payload res with
  | Json (JList emails) =>
      o ← total "open_count" emails;
      c ← total "click_count" emails;
      g ← count_engaged emails;
      Some {| totalEmails := length emails; totalOpens := o;
              totalClicks := c; engaged := g |}
  | _ => None
  end.

End Dashboard.

(** ** Facts about the primitives *)

(** Closes the case of a view that answers with an error and leaves the
    store as it was. *)
Ltac unchanged := left; split; [done | simpl; lia].

Section PyFacts.
Import Py.

Lemma hex_digit_is_hex (d : N) : is_hex (hex_digit d) = true.
Proof.
  destruct d as [|p]; [reflexivity|].
  do 5 (try destruct p as [p|p|]); reflexivity.
Qed.

Lemma hex_digits_length (k : nat) (n : N) : String.length (hex_digits k n) = k.
Proof. induction k as [|k IH]; simpl; [reflexivity | by rewrite IH]. Qed.

Lemma hex_digits_hex (k : nat) (n : N) :
  Forall (λ c, is_hex c = true) (chars (hex_digits k n)).
Proof.
  induction k as [|k IH]; [constructor|].
  cbn [hex_digits chars list_ascii_of_string].
  constructor; [apply hex_digit_is_hex | exact IH].
Qed.

Lemma prefix_length (n : nat) (s : string) :
  (n ≤ String.length s)%nat → String.length (prefix n s) = n.
Proof.
  unfold prefix. revert s.
  induction n as [|n IH]; intros [|c s] Hn; simpl in *; try lia; try reflexivity.
  rewrite IH; [reflexivity | lia].
Qed.

Lemma prefix_chars (P : ascii → Prop) (n : nat) (s : string) :
  Forall P (chars s) → Forall P (chars (prefix n s)).
Proof.
  unfold prefix, chars. revert s.
  induction n as [|n IH]; intros [|c s] Hs; simpl in *; try constructor.
  - by inversion Hs.
  - apply IH. by inversion Hs.
Qed.
End PyFacts.

(** SQLite compares the timestamp columns as text, byte by byte; this is
    the order [String.leb] decides. On timestamps of the fixed shape
    [YYYY-MM-DD HH:MM:SS] it is the chronological order. *)
Section TextOrder.

Lemma string_leb_trans (s1 s2 s3 : string) :
  String.leb s1 s2 = true → String.leb s2 s3 = true → String.leb s1 s3 = true.
Proof.
  unfold String.leb.
  revert s2 s3. induction s1 as [|a s1 IH]; intros [|b s2] [|c s3]; simpl; try done.
  specialize (IH s2 s3).
  destruct (Ascii.compare a b) eqn:Hab; try done;
  destruct (Ascii.compare b c) eqn:Hbc; try done.
  - apply Ascii.compare_eq_iff in Hab, Hbc. subst.
    replace (Ascii.compare c c) with Eq; [exact IH|].
    symmetry. unfold Ascii.compare. apply N.compare_refl.
  - apply Ascii.compare_eq_iff in Hab. subst. by rewrite Hbc.
  - apply Ascii.compare_eq_iff in Hbc. subst. by rewrite Hab.
  - intros _ _. unfold Ascii.compare in *.
    rewrite N.compare_lt_iff in Hab, Hbc.
    replace (N_of_ascii a ?= N_of_ascii c) with Lt; [done|].
    symmetry. apply N.compare_lt_iff. lia.
Qed.

End TextOrder.

(** [ORDER BY] returns a permutation of its input that is sorted for the
    key's order. *)
Section Sorting.
Context {A : Type} (le : A → A → bool).
Hypothesis le_total : ∀ a b, le a b = true ∨ le b a = true.
Hypothesis le_trans : ∀ a b c, le a b = true → le b c = true → le a c = true.

Lemma insert_by_Permutation (x : A) (l : list A) : insert_by le x l ≡ₚ x :: l.
Proof.
  induction l as [|y l IH]; simpl; [done|].
  destruct (le x y); [done|]. rewrite IH. apply Permutation_swap.
Qed.

Lemma sort_by_Permutation (l : list A) : sort_by le l ≡ₚ l.
Proof.
  induction l as [|x l IH]; simpl; [done|].
  rewrite insert_by_Permutation. by rewrite IH.
Qed.

Lemma insert_by_sorted (x : A) (l : list A) :
  StronglySorted (λ a b, le a b = true) l →
  StronglySorted (λ a b, le a b = true) (insert_by le x l).
Proof.
  induction 1 as [|y l Hl IH Hy]; simpl.
  - repeat constructor.
  - destruct (le x y) eqn:Hxy.
    + constructor; [by constructor|].
      constructor; [done|].
      eapply Forall_impl; [exact Hy|]. intros z Hz. by eapply le_trans.
    + constructor; [done|].
      rewrite insert_by_Permutation. constructor; [|done].
      destruct (le_total x y); congruence.
Qed.

Lemma sort_by_sorted (l : list A) :
  StronglySorted (λ a b, le a b = true) (sort_by le l).
Proof.
  induction l as [|x l IH]; simpl; [constructor|]. by apply insert_by_sorted.
Qed.
End Sorting.

(** Sorting commutes with a map that carries the order along. *)
Lemma insert_by_fmap {A B} (f : A → B) (le : B → B → bool)
    (le' : A → A → bool) (x : A) (l : list A) :
  (∀ a b, le (f a) (f b) = le' a b) →
  insert_by le (f x) (f <$> l) = f <$> insert_by le' x l.
Proof.
  intros Hle. induction l as [|y l IH]; [done|].
  rewrite fmap_cons. simpl. rewrite Hle.
  destruct (le' x y); [done|]. rewrite fmap_cons. by f_equal.
Qed.

Lemma sort_by_fmap {A B} (f : A → B) (le : B → B → bool)
    (le' : A → A → bool) (l : list A) :
  (∀ a b, le (f a) (f b) = le' a b) →
  sort_by le (f <$> l) = f <$> sort_by le' l.
Proof.
  intros Hle. induction l as [|x l IH]; [done|].
  rewrite fmap_cons. simpl. rewrite IH. by apply insert_by_fmap.
Qed.

Lemma desc_total {A} (key : A → timestamp) (a b : A) :
  desc key a b = true ∨ desc key b a = true.
Proof. apply String.leb_total. Qed.

Lemma desc_trans {A} (key : A → timestamp) (a b c : A) :
  desc key a b = true → desc key b c = true → desc key a c = true.
Proof. unfold desc. intros. by eapply string_leb_trans. Qed.

Lemma asc_total {A} (key : A → timestamp) (a b : A) :
  asc key a b = true ∨ asc key b a = true.
Proof. apply String.leb_total. Qed.

Lemma asc_trans {A} (key : A → timestamp) (a b c : A) :
  asc key a b = true → asc key b c = true → asc key a c = true.
Proof. unfold asc. intros. by eapply string_leb_trans. Qed.

Section ListFacts.
Context {A : Type} (P : A → Prop) `{∀ x, Decision (P x)}.

Lemma filter_all (l : list A) : Forall P l → filter P l = l.
Proof.
  induction 1 as [|x l Hx _ IH]; [done|].
  rewrite filter_cons_True by done. by f_equal.
Qed.

Lemma filter_none (l : list A) : Forall (λ x, ¬ P x) l → filter P l = [].
Proof.
  induction 1 as [|x l Hx _ IH]; [done|].
  by rewrite filter_cons_False.
Qed.
End ListFacts.

(** ** Joins and grouping *)

Section QueryOperators.
Context {A B K : Type} `{EqDecision K}.

Lemma list_bind_assoc {C} (f : A → list B) (g : B → list C) (l : list A) :
  (l ≫= f) ≫= g = l ≫= (λ a, f a ≫= g).
Proof.
  induction l as [|a l IH]; [done|].
  rewrite !bind_cons, bind_app. by f_equal.
Qed.

Lemma elem_of_nullable (x : option B) (l : list B) :
  x ∈ nullable l ↔ (l = [] ∧ x = None) ∨ (∃ b, b ∈ l ∧ x = Some b).
Proof.
  destruct l as [|b0 l]; unfold nullable.
  - rewrite list_elem_of_singleton. split; [by left|].
    intros [[_ ?]|(b & Hb & _)]; [done | by apply not_elem_of_nil in Hb].
  - rewrite list_elem_of_fmap. split.
    + intros (b & -> & Hb). right. eauto.
    + intros [[? _]|(b & Hb & ->)]; [done | eauto].
Qed.

Lemma nullable_nonempty (l : list B) : nullable l ≠ [].
Proof. by destruct l. Qed.

(** Duplicates of a leading key collapse to a single group key. *)
Lemma remove_dups_leading (k : K) (l1 l2 : list K) :
  l1 ≠ [] → Forall (λ x, x = k) l1 → k ∉ l2 →
  remove_dups (l1 ++ l2) = k :: remove_dups l2.
Proof.
  intros Hne Hall Hk. induction Hall as [|x l1 -> Hall IH]; [done|].
  destruct l1 as [|y l1]; simpl remove_dups.
  - case (decide_rel elem_of k l2); [done|]. done.
  - case (decide_rel elem_of k (y :: l1 ++ l2)).
    + intros _. by apply IH.
    + intros []. inversion Hall; subst. left.
Qed.

Context (key : B → K) (k : A → K) (f : A → list B).
Hypothesis f_nonempty : ∀ a, f a ≠ [].
Hypothesis f_key : ∀ a r, r ∈ f a → key r = k a.

Lemma bind_keys (l : list A) (x : K) :
  x ∈ key <$> (l ≫= f) → x ∈ k <$> l.
Proof.
  rewrite !list_elem_of_fmap. intros (r & -> & Hr).
  apply list_elem_of_bind in Hr as (a & Hr & Ha). eauto.
Qed.

Lemma group_keys (l : list A) :
  NoDup (k <$> l) → remove_dups (key <$> (l ≫= f)) = k <$> l.
Proof.
  induction l as [|a l IH]; [done|].
  rewrite fmap_cons, NoDup_cons. intros [Ha Hl].
  rewrite bind_cons, fmap_app.
  rewrite (remove_dups_leading (k a)).
  - by rewrite IH.
  - specialize (f_nonempty a). by destruct (f a).
  - apply Forall_fmap, Forall_forall. intros r Hr. by apply f_key.
  - intros Hin. by apply Ha, bind_keys.
Qed.

Lemma group_rows (l : list A) (a : A) :
  NoDup (k <$> l) → a ∈ l →
  filter (λ r, key r = k a) (l ≫= f) = f a.
Proof.
  induction l as [|a0 l IH]; [by intros _ ?%not_elem_of_nil|].
  rewrite fmap_cons, NoDup_cons. intros [Ha0 Hl] Ha.
  rewrite bind_cons, filter_app.
  apply elem_of_cons in Ha as [->|Ha].
  - rewrite filter_all, filter_none; [by rewrite app_nil_r| |].
    + apply Forall_forall. intros r Hr Hk. apply Ha0.
      rewrite <- Hk. apply bind_keys. by apply list_elem_of_fmap_2.
    + apply Forall_forall. intros r Hr. by apply f_key.
  - rewrite filter_none, IH; [done..|].
    apply Forall_forall. intros r Hr Hk. apply Ha0.
    rewrite <- (f_key _ _ Hr), Hk. by apply list_elem_of_fmap_2.
Qed.

Lemma group_by_bind (l : list A) :
  NoDup (k <$> l) →
  group_by key (l ≫= f) = (λ a, (k a, f a)) <$> l.
Proof.
  intros Hl. unfold group_by. rewrite group_keys by done.
  rewrite <- list_fmap_compose. apply Forall_fmap_ext, Forall_forall.
  intros a Ha. simpl. f_equal. by apply group_rows.
Qed.
End QueryOperators.

(** ** The aggregate query of [list_emails]

    With the primary key of [emails] in force the groups of the query are
    the emails, each with its own joined rows; with the primary keys of
    [opens] and [clicks] in force the distinct ids counted in a group are
    the rows referencing the email. *)

Section ListEmails.
Variable s : store.

Lemma emails_opens_clicks_bind :
  emails_opens_clicks s = emails s ≫= joined_for s.
Proof.
  unfold emails_opens_clicks, left_join at 1.
  unfold left_join. by rewrite list_bind_assoc.
Qed.

Lemma elem_of_joined_for (e : email_row) (r : joined_row) :
  r ∈ joined_for s e ↔
    r.1.1 = e
    ∧ r.1.2 ∈ nullable (filter (λ o, e_id e = o_email_id o) (opens s))
    ∧ r.2 ∈ nullable (filter (λ c, e_id e = c_email_id c) (clicks s)).
Proof.
  unfold joined_for. rewrite list_elem_of_bind. split.
  - intros (eo & Hr & Heo).
    apply list_elem_of_fmap in Heo as (o & -> & Ho).
    apply list_elem_of_fmap in Hr as (c & -> & Hc). done.
  - destruct r as [[e' o] c]. simpl. intros (-> & Ho & Hc).
    exists (e, o). split; by apply list_elem_of_fmap_2.
Qed.

Lemma joined_for_head (e : email_row) :
  ∃ r, head (joined_for s e) = Some r ∧ r.1.1 = e.
Proof.
  destruct (joined_for s e) as [|r l] eqn:Hj.
  - exfalso.
    destruct (nullable (filter (λ o, e_id e = o_email_id o) (opens s)))
      as [|o os] eqn:Ho; [by apply nullable_nonempty in Ho|].
    destruct (nullable (filter (λ c, e_id e = c_email_id c) (clicks s)))
      as [|c cs] eqn:Hc; [by apply nullable_nonempty in Hc|].
    assert (Hin : ((e, o), c) ∈ joined_for s e).
    { apply elem_of_joined_for. simpl. rewrite Ho, Hc.
      split; [done|]. split; left. }
    rewrite Hj in Hin. by apply not_elem_of_nil in Hin.
  - exists r. split; [done|].
    assert (Hin : r ∈ joined_for s e) by (rewrite Hj; left).
    by apply elem_of_joined_for in Hin as [? _].
Qed.

Lemma joined_for_nonempty (e : email_row) : joined_for s e ≠ [].
Proof. destruct (joined_for_head e) as (r & Hr & _). by destruct (joined_for s e). Qed.

Lemma group_by_emails :
  NoDup (e_id <$> emails s) →
  group_by (λ r : joined_row, e_id r.1.1) (emails_opens_clicks s)
  = (λ e, (e_id e, joined_for s e)) <$> emails s.
Proof.
  intros Hpk. rewrite emails_opens_clicks_bind.
  apply (group_by_bind (λ r : joined_row, e_id r.1.1) e_id (joined_for s));
    [apply joined_for_nonempty| |done].
  intros e r Hr. by apply elem_of_joined_for in Hr as [-> _].
Qed.

(** The ids counted by [COUNT(DISTINCT o.id)] in the group of [e]. *)
Lemma open_ids_of_group (e : email_row) (x : N) :
  x ∈ omap id (col_o o_id <$> joined_for s e)
  ↔ x ∈ o_id <$> opens_of s (e_id e).
Proof.
  rewrite list_elem_of_omap, list_elem_of_fmap. unfold opens_of. split.
  - intros (y & Hy & Hx). simpl in Hx. subst y.
    apply list_elem_of_fmap in Hy as (r & Hr & Hin).
    apply elem_of_joined_for in Hin as (_ & Ho & _).
    unfold col_o in Hr. destruct (r.1.2) as [o|]; [|done].
    simpl in Hr. injection Hr as ->.
    apply elem_of_nullable in Ho as [[_ ?]|(o' & Ho' & [= <-])]; [done|].
    exists o. split; [done|].
    apply list_elem_of_filter in Ho' as [Heq Ho'].
    by apply list_elem_of_filter.
  - intros (o & -> & Ho). apply list_elem_of_filter in Ho as [Heq Ho].
    destruct (nullable (filter (λ c, e_id e = c_email_id c) (clicks s)))
      as [|c cs] eqn:Hc; [by apply nullable_nonempty in Hc|].
    exists (Some (o_id o)). split; [|done].
    apply list_elem_of_fmap. exists ((e, Some o), c). split; [done|].
    apply elem_of_joined_for. simpl. split; [done|]. split.
    + apply elem_of_nullable. right. exists o. split; [|done].
      by apply list_elem_of_filter.
    + rewrite Hc. left.
Qed.

Lemma click_ids_of_group (e : email_row) (x : N) :
  x ∈ omap id (col_c c_id <$> joined_for s e)
  ↔ x ∈ c_id <$> clicks_of s (e_id e).
Proof.
  rewrite list_elem_of_omap, list_elem_of_fmap. unfold clicks_of. split.
  - intros (y & Hy & Hx). simpl in Hx. subst y.
    apply list_elem_of_fmap in Hy as (r & Hr & Hin).
    apply elem_of_joined_for in Hin as (_ & _ & Hc).
    unfold col_c in Hr. destruct (r.2) as [c|]; [|done].
    simpl in Hr. injection Hr as ->.
    apply elem_of_nullable in Hc as [[_ ?]|(c' & Hc' & [= <-])]; [done|].
    exists c. split; [done|].
    apply list_elem_of_filter in Hc' as [Heq Hc'].
    by apply list_elem_of_filter.
  - intros (c & -> & Hc). apply list_elem_of_filter in Hc as [Heq Hc].
    destruct (nullable (filter (λ o, e_id e = o_email_id o) (opens s)))
      as [|o os] eqn:Ho; [by apply nullable_nonempty in Ho|].
    exists (Some (c_id c)). split; [|done].
    apply list_elem_of_fmap. exists ((e, o), Some c). split; [done|].
    apply elem_of_joined_for. simpl. split; [done|]. split.
    + rewrite Ho. left.
    + apply elem_of_nullable. right. exists c. split; [|done].
      by apply list_elem_of_filter.
Qed.

Lemma count_distinct_length {K} `{EqDecision K} (xs : list (option K))
    (ids : list K) :
  NoDup ids → (∀ x, x ∈ omap id xs ↔ x ∈ ids) →
  count_distinct xs = length ids.
Proof.
  intros Hnd Hiff. unfold count_distinct.
  apply Permutation_length, NoDup_Permutation;
    [apply NoDup_remove_dups | done |].
  intros x. by rewrite elem_of_remove_dups.
Qed.

Lemma NoDup_fmap_filter {A K} (f : A → K) (P : A → Prop)
    `{∀ x, Decision (P x)} (l : list A) :
  NoDup (f <$> l) → NoDup (f <$> filter P l).
Proof.
  intros Hnd. eapply sublist_NoDup; [exact Hnd|].
  apply fmap_sublist, sublist_filter.
Qed.

Lemma group_open_count (e : email_row) :
  NoDup (o_id <$> opens s) →
  count_distinct (col_o o_id <$> joined_for s e) = open_count s (e_id e).
Proof.
  intros Hpk. unfold open_count.
  rewrite <- (length_fmap o_id (opens_of s (e_id e))).
  apply count_distinct_length; [by apply NoDup_fmap_filter|].
  apply open_ids_of_group.
Qed.

Lemma group_click_count (e : email_row) :
  NoDup (c_id <$> clicks s) →
  count_distinct (col_c c_id <$> joined_for s e) = click_count s (e_id e).
Proof.
  intros Hpk. unfold click_count.
  rewrite <- (length_fmap c_id (clicks_of s (e_id e))).
  apply count_distinct_length; [by apply NoDup_fmap_filter|].
  apply click_ids_of_group.
Qed.

Lemma aggregate_group (e : email_row) :
  aggregate (e_id e, joined_for s e) = Some (stats_of s e).
Proof.
  unfold aggregate. simpl.
  destruct (joined_for_head e) as (r & -> & <-). done.
Qed.

Lemma aggregate_groups (l : list email_row) :
  omap aggregate ((λ e, (e_id e, joined_for s e)) <$> l) = stats_of s <$> l.
Proof.
  induction l as [|e l IH]; [done|].
  rewrite !fmap_cons. cbn [omap list_omap].
  rewrite aggregate_group. by f_equal.
Qed.

Lemma list_emails_query_stats :
  NoDup (e_id <$> emails s) →
  list_emails_query s
  = sort_by (desc s_created_at) (stats_of s <$> sort_by (asc e_id) (emails s)).
Proof.
  intros Hpk. unfold list_emails_query. rewrite group_by_emails by done.
  rewrite (sort_by_fmap _ (asc fst) (asc e_id)) by done.
  by rewrite aggregate_groups.
Qed.

Lemma list_emails_query_Permutation :
  NoDup (e_id <$> emails s) →
  list_emails_query s ≡ₚ stats_of s <$> emails s.
Proof.
  intros Hpk. rewrite list_emails_query_stats by done.
  by rewrite !sort_by_Permutation.
Qed.
End ListEmails.

(** ** What each view does to the store *)

Section Fetch.
Context {A : Type} (P : A → Prop) `{∀ x, Decision (P x)}.

Lemma fetchone_filter_Some (l : list A) (x : A) :
  fetchone (filter P l) = Some x → P x ∧ x ∈ l.
Proof.
  unfold fetchone. intros Hx. apply (list_elem_of_filter P l x).
  destruct (filter P l); [done|]. injection Hx as ->. left.
Qed.

Lemma fetchone_filter_None (l : list A) :
  fetchone (filter P l) = None ↔ Forall (λ x, ¬ P x) l.
Proof.
  unfold fetchone. split.
  - intros Hn. apply Forall_forall. intros x Hx HP.
    assert (Hin : x ∈ filter P l) by by apply list_elem_of_filter.
    destruct (filter P l); [by apply not_elem_of_nil in Hin | done].
  - intros Hall. by rewrite filter_none.
Qed.
End Fetch.

Lemma select_email_None (id : string) (s : store) :
  fetchone (select_email id (get_db s)) = None ↔ ¬ has_email s id.
Proof.
  unfold select_email. simpl. rewrite fetchone_filter_None, Forall_forall.
  unfold has_email, email_ids. rewrite list_elem_of_fmap. split.
  - intros Hall (e & -> & He). by apply (Hall e).
  - intros Hno e He Hid. apply Hno. eauto.
Qed.

Lemma select_email_Some (id : string) (s : store) :
  has_email s id ↔ ∃ e, fetchone (select_email id (get_db s)) = Some e.
Proof.
  split.
  - intros Hhas. destruct (fetchone (select_email id (get_db s))) eqn:Hf; [eauto|].
    by apply select_email_None in Hf.
  - intros [e He]. destruct (decide (id ∈ email_ids s)) as [|Hno]; [done|].
    apply select_email_None in Hno. congruence.
Qed.

Lemma select_link_None (id : string) (s : store) :
  fetchone (select_link id (get_db s)) = None ↔ id ∉ link_ids s.
Proof.
  unfold select_link. simpl. rewrite fetchone_filter_None, Forall_forall.
  unfold link_ids. rewrite list_elem_of_fmap. split.
  - intros Hall (l & -> & Hl). by apply (Hall l).
  - intros Hno l Hl Hid. apply Hno. eauto.
Qed.

Lemma select_link_Some (id : string) (s : store) (l : link_row) :
  fetchone (select_link id (get_db s)) = Some l → l ∈ links s ∧ l_id l = id.
Proof.
  unfold select_link. simpl. intros Hl.
  by apply fetchone_filter_Some in Hl as [? ?].
Qed.


Lemma track_open_found req now id s :
  has_email s id →
  track_open req now id s
  = (insert_open now id (client_ip req) (user_agent req) "pixel" s,
     send_file PIXEL pixel_kwargs).
Proof.
  intros [e He]%select_email_Some. unfold track_open. by rewrite He.
Qed.

Lemma track_open_missing req now id s :
  ¬ has_email s id →
  track_open req now id s = (s, send_file PIXEL pixel_kwargs).
Proof.
  intros Hno%select_email_None. unfold track_open. by rewrite Hno.
Qed.

Lemma send_file_pixel :
  send_file PIXEL pixel_kwargs
  = Raise (TypeError "send_file() got an unexpected keyword argument 'headers'").
Proof. reflexivity. Qed.

Lemma track_click_found req now id s l :
  fetchone (select_link id (get_db s)) = Some l →
  track_click req now id s
  = (insert_open now (l_email_id l) (client_ip req) (user_agent req) "link"
       (insert_click now id (l_email_id l) (client_ip req) (user_agent req) s),
     redirect (l_original_url l)).
Proof. intros Hl. unfold track_click. by rewrite Hl. Qed.

Lemma track_click_missing req now id s :
  id ∉ link_ids s → track_click req now id s = (s, abort 404).
Proof.
  intros Hno%select_link_None. unfold track_click. by rewrite Hno.
Qed.

(** A redirect is a 302 or fails; it fails on a target with a line break
    only. *)
Lemma redirect_cases (url : string) :
  (has_newline url = false
   ∧ redirect url
     = Return {| status := 302; mimetype := "text/html";
                 headers := [("Location", location_header url)];
                 payload := RedirectPage url |})
  ∨ (has_newline url = true ∧ redirect url = Raise ValueError).
Proof. unfold redirect. destruct (has_newline url); [by right | by left]. Qed.

(** Characters from [!] to [DEL] are ASCII and none of them is white
    space: a non-empty target made of them is sent as it is. *)
Lemma plain_chars (l : list ascii) :
  Forall (λ c, 32 < N_of_ascii c < 128) l →
  forallb (λ c, N_of_ascii c <? 128) l = true
  ∧ Py.skip Py.is_space l = l
  ∧ Py.skip (λ c, negb (Py.is_space c)) l = []
  ∧ existsb (λ c, (N_of_ascii c =? 10) || (N_of_ascii c =? 13)) l = false.
Proof.
  induction 1 as [|c l Hc _ (IH1 & IH2 & IH3 & IH4)]; [done|].
  assert (Hsp : Py.is_space c = false).
  { unfold Py.is_space. cbv zeta.
    destruct (N.leb_spec 9 (N_of_ascii c)), (N.leb_spec (N_of_ascii c) 13),
      (N.leb_spec 28 (N_of_ascii c)), (N.leb_spec (N_of_ascii c) 32);
      simpl; try done; lia. }
  cbn [forallb Py.skip existsb]. rewrite Hsp, IH1, IH3, IH4. simpl.
  repeat split.
  - rewrite andb_true_r. apply N.ltb_lt. lia.
  - destruct (N.eqb_spec (N_of_ascii c) 10), (N.eqb_spec (N_of_ascii c) 13);
      simpl; try done; lia.
Qed.

Lemma redirect_plain (url : string) :
  url ≠ EmptyString → Forall (λ c, 32 < N_of_ascii c < 128) (Py.chars url) →
  redirect url
  = Return {| status := 302; mimetype := "text/html";
              headers := [("Location", Text url)];
              payload := RedirectPage url |}.
Proof.
  intros Hne Hall. destruct (plain_chars _ Hall) as (Ha & Hs & Hw & Hn).
  unfold redirect, has_newline, location_header, Py.is_ascii, Py.one_word.
  rewrite Hn, Ha, Hs.
  destruct (Py.chars url) as [|c l] eqn:Hl.
  - destruct url; [done | discriminate].
  - by rewrite Hw.
Qed.

(** Reading the fields of the body. *)
Lemma field_text (req : request) (name : string) :
  field req name ≠ EmptyString →
  ∃ d, req_data req = Parsed (JDict d)
       ∧ Py.dict_get d name (JStr EmptyString) = JStr (field req name).
Proof.
  unfold field, field_value.
  destruct (req_data req) as [| |j]; [done|done|].
  destruct j; try done.
  destruct (Py.dict_get d name (JStr EmptyString)) eqn:Hv; try done.
  intros _. by exists d.
Qed.

Lemma not_text (v : string) : v ≠ EmptyString → Py.not_ (JStr v) = false.
Proof. by destruct v. Qed.


Lemma create_tracked_email_fresh req now rnd s :
  field req "recipient" ≠ EmptyString → field req "subject" ≠ EmptyString →
  new_email_id rnd ∉ email_ids s →
  create_tracked_email req now rnd s
  = (add_email now (new_email_id rnd) (field req "recipient")
       (field req "subject") s,
     Return (jsonify (created_email_json req (new_email_id rnd)))).
Proof.
  intros Hr Hs Hfresh.
  destruct (field_text _ _ Hr) as (d & Hd & Hrv).
  destruct (field_text _ _ Hs) as (d' & Hd' & Hsv).
  rewrite Hd in Hd'. injection Hd' as <-.
  unfold create_tracked_email, request_json. rewrite Hd. simpl.
  rewrite Hrv, Hsv, !not_text by done. simpl.
  unfold insert_email. simpl. by rewrite decide_False.
Qed.

Lemma create_tracked_email_collision req now rnd s :
  field req "recipient" ≠ EmptyString → field req "subject" ≠ EmptyString →
  new_email_id rnd ∈ email_ids s →
  create_tracked_email req now rnd s
  = (s, Raise (IntegrityError "UNIQUE constraint failed: emails.id")).
Proof.
  intros Hr Hs Hdup.
  destruct (field_text _ _ Hr) as (d & Hd & Hrv).
  destruct (field_text _ _ Hs) as (d' & Hd' & Hsv).
  rewrite Hd in Hd'. injection Hd' as <-.
  unfold create_tracked_email, request_json. rewrite Hd. simpl.
  rewrite Hrv, Hsv, !not_text by done. simpl.
  unfold insert_email. simpl. by rewrite decide_True.
Qed.

(** A parameter that cannot be bound raises one of two exceptions; the
    request then ends with a 500. *)
Lemma bind_raises (v : json) (e : exn) :
  bind v = Raise e → e = OverflowError ∨ e = ProgrammingError.
Proof.
  destruct v; simpl; try done.
  - destruct (_ <? _); [done|]. intros [= <-]. by left.
  - destruct (_ <=? _); [done|]. intros [= <-]. by left.
  - intros [= <-]. by right.
  - intros [= <-]. by right.
Qed.

(** Whatever the request, the view leaves the store as it is and answers
    with an error, or appends one Email row under a fresh id and answers
    with the id and its URL. *)
Lemma create_tracked_email_effect req now rnd s :
  let v := create_tracked_email req now rnd s in
  (v.1 = s ∧ 400 ≤ status (response_of v))
  ∨ (∃ recipient subject,
       (new_email_id rnd ∉ email_ids s)
       ∧ v = (add_email now (new_email_id rnd) recipient subject s,
              Return (jsonify (created_email_json req (new_email_id rnd))))).
Proof.
  unfold create_tracked_email, request_json, response_of.
  destruct (req_data req) as [| |j]; simpl; [unchanged..|].
  destruct j; simpl; try unchanged.
  destruct ((Py.not_ _) || (Py.not_ _)); simpl; [unchanged|].
  unfold insert_email.
  destruct (bind (Py.dict_get d "recipient" (JStr EmptyString)))
    as [[r|]|e] eqn:Hr; simpl.
  - destruct (bind (Py.dict_get d "subject" (JStr EmptyString)))
      as [[sub|]|e] eqn:Hs; simpl.
    + destruct (decide _) as [Hdup|Hfresh]; simpl; [unchanged|].
      right. by exists r, sub.
    + unchanged.
    + destruct (bind_raises _ _ Hs) as [-> | ->]; unchanged.
  - destruct (bind (Py.dict_get d "subject" (JStr EmptyString)))
      as [[sub|]|e] eqn:Hs; simpl; try unchanged.
    destruct (bind_raises _ _ Hs) as [-> | ->]; unchanged.
  - destruct (bind_raises _ _ Hr) as [-> | ->]; unchanged.
Qed.

Lemma create_tracked_link_invalid req now rnd s d :
  req_data req = Parsed (JDict d) →
  Py.not_ (Py.dict_get d "email_id" (JStr EmptyString)) = true
  ∨ Py.not_ (Py.dict_get d "url" (JStr EmptyString)) = true →
  create_tracked_link req now rnd s
  = (s, Return (with_status
                  (jsonify (error_json "email_id and url are required")) 400)).
Proof.
  unfold create_tracked_link, request_json. intros -> Hnot. simpl.
  destruct Hnot as [-> | ->]; [done|]. by rewrite orb_true_r.
Qed.


Lemma create_tracked_link_fresh req now rnd s lbl label :
  field req "email_id" ≠ EmptyString → field req "url" ≠ EmptyString →
  field_value req "label" = Some lbl → bind lbl = Return label →
  has_email s (field req "email_id") →
  new_link_id rnd ∉ link_ids s →
  create_tracked_link req now rnd s
  = (add_link now (new_link_id rnd) (field req "email_id") (field req "url")
       label s,
     Return (jsonify (created_link_json req (new_link_id rnd)
                        (JStr (field req "url"))))).
Proof.
  intros He Hu Hl Hb [e Hsel]%select_email_Some Hfresh.
  destruct (field_text _ _ He) as (d & Hd & Hev).
  destruct (field_text _ _ Hu) as (d' & Hd' & Huv).
  rewrite Hd in Hd'. injection Hd' as <-.
  unfold field_value in Hl. rewrite Hd in Hl. injection Hl as Hl.
  unfold create_tracked_link, request_json. rewrite Hd. simpl.
  rewrite Hev, Huv, Hl, !not_text by done. simpl. rewrite Hsel.
  unfold insert_link. simpl. rewrite Hb. simpl. by rewrite decide_False.
Qed.

Lemma create_tracked_link_collision req now rnd s lbl label :
  field req "email_id" ≠ EmptyString → field req "url" ≠ EmptyString →
  field_value req "label" = Some lbl → bind lbl = Return label →
  has_email s (field req "email_id") →
  new_link_id rnd ∈ link_ids s →
  create_tracked_link req now rnd s
  = (s, Raise (IntegrityError "UNIQUE constraint failed: links.id")).
Proof.
  intros He Hu Hl Hb [e Hsel]%select_email_Some Hdup.
  destruct (field_text _ _ He) as (d & Hd & Hev).
  destruct (field_text _ _ Hu) as (d' & Hd' & Huv).
  rewrite Hd in Hd'. injection Hd' as <-.
  unfold field_value in Hl. rewrite Hd in Hl. injection Hl as Hl.
  unfold create_tracked_link, request_json. rewrite Hd. simpl.
  rewrite Hev, Huv, Hl, !not_text by done. simpl. rewrite Hsel.
  unfold insert_link. simpl. rewrite Hb. simpl. by rewrite decide_True.
Qed.

(** Whatever the request, the view leaves the store as it is and answers
    with an error, or appends one Link row under a fresh id for an email
    of the store and answers 200. *)
Lemma create_tracked_link_effect req now rnd s :
  let v := create_tracked_link req now rnd s in
  (v.1 = s ∧ 400 ≤ status (response_of v))
  ∨ (∃ email_id url label,
       has_email s email_id ∧ (new_link_id rnd ∉ link_ids s)
       ∧ v.1 = add_link now (new_link_id rnd) email_id url label s
       ∧ status (response_of v) = 200).
Proof.
  unfold create_tracked_link, request_json, response_of.
  destruct (req_data req) as [| |j]; simpl; [unchanged..|].
  destruct j; simpl; try unchanged.
  destruct ((Py.not_ _) || (Py.not_ _)); simpl; [unchanged|].
  unfold select_email_bound.
  destruct (bind (Py.dict_get d "email_id" (JStr EmptyString)))
    as [[e|]|x] eqn:He; simpl;
    [| unchanged
     | destruct (bind_raises _ _ He) as [-> | ->]; unchanged].
  destruct (fetchone (select_email e (get_db s))) as [row|] eqn:Hsel; simpl;
    [|unchanged].
  assert (Hhas : has_email s e) by (apply select_email_Some; eauto).
  unfold insert_link. rewrite He. simpl.
  destruct (bind (Py.dict_get d "url" (JStr EmptyString)))
    as [[u|]|x] eqn:Hu; simpl.
  - destruct (bind (Py.dict_get d "label" (JStr EmptyString)))
      as [label|x] eqn:Hl; simpl.
    + destruct (decide _) as [Hdup|Hfresh]; simpl; [unchanged|].
      right. by exists e, u, label.
    + destruct (bind_raises _ _ Hl) as [-> | ->]; unchanged.
  - destruct (bind (Py.dict_get d "label" (JStr EmptyString)))
      as [label|x] eqn:Hl; simpl; [unchanged|].
    destruct (bind_raises _ _ Hl) as [-> | ->]; unchanged.
  - destruct (bind_raises _ _ Hu) as [-> | ->]; unchanged.
Qed.

Lemma delete_email_purge email_id s :
  delete_email email_id s
  = (purge email_id s, Return (jsonify (JDict [("success", JBool true)]))).
Proof. reflexivity. Qed.

(** ** Invariants of the store *)

Lemma schema_ok_init : schema_ok init_db.
Proof. split; simpl; constructor. Qed.

Lemma refs_ok_init : refs_ok init_db.
Proof. split; simpl; constructor. Qed.

Lemma NoDup_snoc_fresh {A} (l : list A) (x : A) :
  NoDup l → x ∉ l → NoDup (l ++ [x]).
Proof.
  intros Hl Hx. apply NoDup_app. split; [done|]. split.
  - intros y Hy ->%list_elem_of_singleton. done.
  - apply NoDup_singleton.
Qed.

Lemma seq_fresh {A} (id : A → N) (l : list A) (seq : N) :
  Forall (λ r, id r ≤ seq) l → seq + 1 ∉ id <$> l.
Proof.
  rewrite Forall_forall. intros Hle (r & Heq & Hr)%list_elem_of_fmap.
  specialize (Hle r Hr). lia.
Qed.

Lemma schema_ok_insert_open now email_id ip ua method s :
  schema_ok s → schema_ok (insert_open now email_id ip ua method s).
Proof.
  intros [He Hl Ho Hc Hos Hcs]. split; simpl; try done.
  - rewrite fmap_app. simpl. apply NoDup_snoc_fresh; [done|]. by apply seq_fresh.
  - apply Forall_app. split.
    + eapply Forall_impl; [exact Hos|]. simpl. intros; lia.
    + constructor; [simpl; lia | constructor].
Qed.

Lemma schema_ok_insert_click now link_id email_id ip ua s :
  schema_ok s → schema_ok (insert_click now link_id email_id ip ua s).
Proof.
  intros [He Hl Ho Hc Hos Hcs]. split; simpl; try done.
  - rewrite fmap_app. simpl. apply NoDup_snoc_fresh; [done|]. by apply seq_fresh.
  - apply Forall_app. split.
    + eapply Forall_impl; [exact Hcs|]. simpl. intros; lia.
    + constructor; [simpl; lia | constructor].
Qed.

Lemma schema_ok_add_email now id recipient subject s :
  id ∉ email_ids s → schema_ok s → schema_ok (add_email now id recipient subject s).
Proof.
  intros Hfresh [He Hl Ho Hc Hos Hcs]. split; simpl; try done.
  rewrite fmap_app. by apply NoDup_snoc_fresh.
Qed.

Lemma schema_ok_add_link now id email_id url label s :
  id ∉ link_ids s → schema_ok s → schema_ok (add_link now id email_id url label s).
Proof.
  intros Hfresh [He Hl Ho Hc Hos Hcs]. split; simpl; try done.
  rewrite fmap_app. by apply NoDup_snoc_fresh.
Qed.

Lemma Forall_filter_keep {A} (P Q : A → Prop) `{∀ x, Decision (Q x)}
    (l : list A) :
  Forall P l → Forall P (filter Q l).
Proof.
  rewrite !Forall_forall. intros HP x [_ Hx]%list_elem_of_filter. by apply HP.
Qed.

Lemma schema_ok_purge email_id s : schema_ok s → schema_ok (purge email_id s).
Proof.
  intros [He Hl Ho Hc Hos Hcs]. split; simpl;
    try (by apply NoDup_fmap_filter);
    by apply Forall_filter_keep.
Qed.

Lemma refs_ok_insert_open now email_id ip ua method s :
  has_email s email_id → refs_ok s →
  refs_ok (insert_open now email_id ip ua method s).
Proof.
  intros Hhas [Hl Ho Hc]. split; simpl; try done.
  apply Forall_app. split; [done|]. by constructor.
Qed.

Lemma refs_ok_insert_click now link ip ua s :
  link ∈ links s → refs_ok s →
  refs_ok (insert_click now (l_id link) (l_email_id link) ip ua s).
Proof.
  intros Hin [Hl Ho Hc]. split; simpl; try done.
  apply Forall_app. split; [done|]. constructor; [|constructor].
  apply Exists_exists. exists link. done.
Qed.

Lemma refs_ok_add_email now id recipient subject s :
  refs_ok s → refs_ok (add_email now id recipient subject s).
Proof.
  intros [Hl Ho Hc]. unfold email_ids in *.
  split; unfold email_ids; simpl; try done.
  - eapply Forall_impl; [exact Hl|]. simpl. intros l Hin.
    rewrite fmap_app. apply elem_of_app. by left.
  - eapply Forall_impl; [exact Ho|]. simpl. intros o Hin.
    rewrite fmap_app. apply elem_of_app. by left.
Qed.

Lemma refs_ok_add_link now id email_id url label s :
  has_email s email_id → refs_ok s →
  refs_ok (add_link now id email_id url label s).
Proof.
  intros Hhas [Hl Ho Hc]. split; simpl; try done.
  - apply Forall_app. split; [done|]. by constructor.
  - eapply Forall_impl; [exact Hc|]. simpl. intros c Hex.
    apply Exists_app. by left.
Qed.

Lemma refs_ok_purge email_id s : refs_ok s → refs_ok (purge email_id s).
Proof.
  intros [Hl Ho Hc]. unfold email_ids in *.
  split; unfold email_ids; simpl.
  - apply Forall_forall. intros l [Hne Hin]%list_elem_of_filter.
    rewrite Forall_forall in Hl. specialize (Hl l Hin).
    apply list_elem_of_fmap in Hl as (e & Heq & He).
    apply list_elem_of_fmap. exists e. split; [done|].
    apply list_elem_of_filter. split; [congruence | done].
  - apply Forall_forall. intros o [Hne Hin]%list_elem_of_filter.
    rewrite Forall_forall in Ho. specialize (Ho o Hin).
    apply list_elem_of_fmap in Ho as (e & Heq & He).
    apply list_elem_of_fmap. exists e. split; [done|].
    apply list_elem_of_filter. split; [congruence | done].
  - apply Forall_forall. intros c [Hne Hin]%list_elem_of_filter.
    rewrite Forall_forall in Hc. specialize (Hc c Hin).
    apply Exists_exists in Hc as (l & Hl' & Hid & Hem).
    apply Exists_exists. exists l. split; [|done].
    apply list_elem_of_filter. split; [congruence | done].
Qed.

Lemma store_inv_step (s s' : store) : step s s' → store_inv s → store_inv s'.
Proof.
  intros Hstep [Hsch Href]. destruct Hstep.
  - destruct (decide (email_id ∈ email_ids s)) as [Hhas|Hno].
    + rewrite track_open_found by done. simpl.
      split; [by apply schema_ok_insert_open | by apply refs_ok_insert_open].
    + by rewrite track_open_missing.
  - destruct (fetchone (select_link link_id (get_db s))) as [l|] eqn:Hsel.
    + rewrite (track_click_found _ _ _ _ l) by done. simpl.
      apply select_link_Some in Hsel as [Hin <-].
      assert (Hmail : has_email s (l_email_id l)).
      { destruct Href as [Hl _ _]. rewrite Forall_forall in Hl. by apply Hl. }
      split.
      * by apply schema_ok_insert_open, schema_ok_insert_click.
      * apply refs_ok_insert_open; [done|]. by apply refs_ok_insert_click.
    + apply select_link_None in Hsel. by rewrite track_click_missing.
  - destruct (create_tracked_email_effect req now rnd s)
      as [[-> _]|(r & sub & Hfresh & ->)]; [done|]. simpl.
    split; [by apply schema_ok_add_email | by apply refs_ok_add_email].
  - destruct (create_tracked_link_effect req now rnd s)
      as [[-> _]|(e & u & l & Hhas & Hfresh & -> & _)]; [done|].
    split; [by apply schema_ok_add_link | by apply refs_ok_add_link].
  - done.
  - done.
  - rewrite delete_email_purge. simpl.
    split; [by apply schema_ok_purge | by apply refs_ok_purge].
Qed.

Lemma reachable_store_inv (s : store) : reachable s → store_inv s.
Proof.
  unfold reachable. revert s. apply rtc_ind_r.
  - split; [apply schema_ok_init | apply refs_ok_init].
  - intros s1 s2 _ Hstep IH. by eapply store_inv_step.
Qed.

(** ** Tracking handlers *)

Lemma count_snoc {A} (P : A → Prop) `{∀ x, Decision (P x)} (l : list A) (x : A) :
  P x → length (filter P (l ++ [x])) = S (length (filter P l)).
Proof.
  intros HP. rewrite filter_app, filter_cons_True by done.
  rewrite length_app. simpl. lia.
Qed.

Lemma reachable_store_email : reachable store_email.
Proof. apply rtc_once. apply step_create_tracked_email. Qed.




(** C6. For a link id that is not in the store, [GET /l/<link_id>] aborts
    with 404: the response carries no [Location] header and the store is
    left exactly as it was. *)
Theorem track_click_unknown_link
    (req : request) (now : timestamp) (link_id : string) (s : store) :
  link_id ∉ link_ids s →
  let v := track_click req now link_id s in
  v.1 = s
  ∧ v.2 = Raise (HTTPException 404)
  ∧ status (response_of v) = 404
  ∧ headers (response_of v) = [].
Proof.
  intros Hno v. subst v. by rewrite track_click_missing.
Qed.

Lemma track_click_unknown_link_witness :
  let v := track_click (sample_request []) "2024-05-01 10:01:00" "ffffffffff"
             store_link in
  v.1 = store_link ∧ status (response_of v) = 404.
Proof.
  destruct (track_click_unknown_link
              (sample_request []) "2024-05-01 10:01:00" "ffffffffff" store_link)
    as (Hs & _ & Hst & _).
  - compute_done.
  - split; assumption.
Defined.

(** The pixel view records the open of a known email and nothing for an
    unknown one; the recording is committed before the response is built. *)
Lemma track_open_records (req : request) (now : timestamp) (email_id : string)
    (s : store) :
  has_email s email_id →
  let s' := (track_open req now email_id s).1 in
  opens s' = opens s ++
    [{| o_id := opens_seq s + 1; o_email_id := email_id; o_opened_at := now;
        o_ip_address := client_ip req; o_user_agent := user_agent req;
        o_method := "pixel" |}]
  ∧ emails s' = emails s ∧ links s' = links s ∧ clicks s' = clicks s
  ∧ open_count s' email_id = S (open_count s email_id).
Proof.
  intros Hhas s'. subst s'. rewrite track_open_found by done.
  unfold open_count, opens_of. simpl. repeat split. by apply count_snoc.
Qed.

Lemma track_open_unknown (req : request) (now : timestamp) (email_id : string)
    (s : store) :
  ¬ has_email s email_id → (track_open req now email_id s).1 = s.
Proof. intros Hno. by rewrite track_open_missing. Qed.

(** On every request the call of [send_file] is refused: the view raises
    instead of returning the image, and the client is served a 500. *)
Lemma track_open_raises (req : request) (now : timestamp) (email_id : string)
    (s : store) :
  let v := track_open req now email_id s in
  v.2 = Raise (TypeError
                 "send_file() got an unexpected keyword argument 'headers'")
  ∧ status (response_of v) = 500
  ∧ payload (response_of v) = ErrorPage 500
  ∧ headers (response_of v) = [].
Proof. done. Qed.

(** What the call would send if [send_file] took the headers: the decoded
    image is a 42-byte GIF89a of width and height 1. *)
Lemma PIXEL_bytes :
  length PIXEL = 42%nat
  ∧ take 6 PIXEL = [71; 73; 70; 56; 57; 97]
  ∧ take 4 (drop 6 PIXEL) = [1; 0; 1; 0].
Proof. by vm_compute. Qed.

(** C2. [GET /p/000000000000.gif] on the store holding that email: the
    Open row with method [pixel] is appended and the open count goes from
    0 to 1, but the response is a 500 without the image and without the
    cache headers, because [send_file] is called with a [headers] keyword
    it does not have. *)
Theorem track_open_existing_email_fails :
  let v := track_open (sample_request []) "2024-05-01 10:00:30"
             "000000000000" store_email in
  has_email store_email "000000000000"
  ∧ opens v.1 =
      [{| o_id := 1; o_email_id := "000000000000";
          o_opened_at := "2024-05-01 10:00:30";
          o_ip_address := Some "203.0.113.7";
          o_user_agent := "Mozilla/5.0"; o_method := "pixel" |}]
  ∧ open_count store_email "000000000000" = 0%nat
  ∧ open_count v.1 "000000000000" = 1%nat
  ∧ v.2 = Raise (TypeError
                   "send_file() got an unexpected keyword argument 'headers'")
  ∧ status (response_of v) = 500
  ∧ payload (response_of v) ≠ File PIXEL
  ∧ headers (response_of v) ≠ no_cache_headers.
Proof.
  repeat split; try done.
  unfold has_email. compute_done.
Qed.

(** C5. [GET /p/ffffffffffff.gif] on a store without that email: the
    store is left unchanged, but the response is the same 500 as for a
    known email, not the image with its cache headers. *)
Theorem track_open_unknown_email_fails :
  let v := track_open (sample_request []) "2024-05-01 10:00:30"
             "ffffffffffff" store_email in
  ¬ has_email store_email "ffffffffffff"
  ∧ v.1 = store_email
  ∧ v.2 = Raise (TypeError
                   "send_file() got an unexpected keyword argument 'headers'")
  ∧ status (response_of v) = 500
  ∧ payload (response_of v) ≠ File PIXEL
  ∧ headers (response_of v) ≠ no_cache_headers.
Proof.
  repeat split; try done.
  unfold has_email. compute_done.
Qed.

(** ** Reporting *)

Lemma stats_of_counts (s : store) (e : email_row) :
  schema_ok s →
  s_open_count (stats_of s e) = open_count s (e_id e)
  ∧ s_click_count (stats_of s e) = click_count s (e_id e).
Proof.
  intros [_ _ Ho Hc _ _]. simpl.
  split; [by apply group_open_count | by apply group_click_count].
Qed.

(** C3. On a store that satisfies its schema, [GET /api/emails] leaves
    the store as it is and answers with a JSON array that has one entry
    per Email, sorted by [created_at] descending; each entry carries the
    columns of its email, an [open_count] equal to the number of Open rows
    referencing it and a [click_count] equal to the number of Click rows
    referencing it, so an email without events is listed with 0 and 0. *)
Theorem list_emails_counts_rows (s : store) :
  schema_ok s →
  ∃ rows : list email_stats,
    list_emails s
    = (s, Return
            {| status := 200; mimetype := "application/json"; headers := [];
               payload := Json (JList
                 ((λ r, JDict
                     [("id", JStr (s_id r));
                      ("recipient", JStr (s_recipient r));
                      ("subject", JStr (s_subject r));
                      ("created_at", JStr (s_created_at r));
                      ("open_count", JNum (s_open_count r));
                      ("last_opened",
                       match s_last_opened r with
                       | Some t => JStr t | None => JNull
                       end);
                      ("click_count", JNum (s_click_count r));
                      ("last_clicked",
                       match s_last_clicked r with
                       | Some t => JStr t | None => JNull
                       end)]) <$> rows)) |})
    ∧ s_id <$> rows ≡ₚ e_id <$> emails s
    ∧ StronglySorted
        (λ a b, String.leb (s_created_at b) (s_created_at a) = true) rows
    ∧ (∀ r, r ∈ rows →
         ∃ e, e ∈ emails s
              ∧ s_id r = e_id e ∧ s_recipient r = e_recipient e
              ∧ s_subject r = e_subject e ∧ s_created_at r = e_created_at e
              ∧ s_open_count r = open_count s (e_id e)
              ∧ s_click_count r = click_count s (e_id e))
    ∧ (∀ e, e ∈ emails s →
         ∃ r, r ∈ rows ∧ s_id r = e_id e
              ∧ s_open_count r = length (opens_of s (e_id e))
              ∧ s_click_count r = length (clicks_of s (e_id e)))
    ∧ (∀ e, e ∈ emails s →
         opens_of s (e_id e) = [] → clicks_of s (e_id e) = [] →
         ∃ r, r ∈ rows ∧ s_id r = e_id e
              ∧ s_open_count r = 0%nat ∧ s_click_count r = 0%nat).
Proof.
  intros Hok. exists (list_emails_query s). set (rows := list_emails_query s).
  assert (Hrows : rows ≡ₚ stats_of s <$> emails s)
    by apply list_emails_query_Permutation, Hok.
  assert (Hlisted : ∀ e, e ∈ emails s →
            ∃ r, r ∈ rows ∧ s_id r = e_id e
                 ∧ s_open_count r = length (opens_of s (e_id e))
                 ∧ s_click_count r = length (clicks_of s (e_id e))).
  { intros e He. exists (stats_of s e).
    destruct (stats_of_counts s e Hok) as [Ho Hc].
    split; [|done]. rewrite Hrows. by apply list_elem_of_fmap_2. }
  split; [done|]. split.
  { rewrite Hrows, <- list_fmap_compose. done. }
  split.
  { subst rows. unfold list_emails_query.
    apply (sort_by_sorted (desc s_created_at));
      [apply desc_total | apply desc_trans]. }
  split.
  { intros r Hr. rewrite Hrows in Hr.
    apply list_elem_of_fmap in Hr as (e & -> & He).
    exists e. destruct (stats_of_counts s e Hok). done. }
  split; [exact Hlisted|].
  intros e He Ho Hc. destruct (Hlisted e He) as (r & Hr & Hid & Hoc & Hcc).
  exists r. rewrite Ho in Hoc. rewrite Hc in Hcc. done.
Qed.

Lemma schema_ok_store_click : schema_ok store_click.
Proof. split; compute_done. Qed.

Lemma list_emails_counts_rows_witness :
  ∃ rows : list email_stats,
    payload (response_of (list_emails store_click))
    = Json (JList
        ((λ r, JDict
            [("id", JStr (s_id r));
             ("recipient", JStr (s_recipient r));
             ("subject", JStr (s_subject r));
             ("created_at", JStr (s_created_at r));
             ("open_count", JNum (s_open_count r));
             ("last_opened",
              match s_last_opened r with
              | Some t => JStr t | None => JNull
              end);
             ("click_count", JNum (s_click_count r));
             ("last_clicked",
              match s_last_clicked r with
              | Some t => JStr t | None => JNull
              end)]) <$> rows))
    ∧ s_id <$> rows ≡ₚ e_id <$> emails store_click.
Proof.
  destruct (list_emails_counts_rows store_click schema_ok_store_click)
    as (rows & Hanswer & Hids & _).
  exists rows. split; [by rewrite Hanswer | exact Hids].
Defined.

(** The sequences of the detail view: the opens of the email newest
    first, its links oldest first, its clicks newest first. *)
Lemma get_email_detail_ordered (email_id : string) (s : store) :
  detail_opens email_id s ≡ₚ opens_of s email_id
  ∧ StronglySorted
      (λ a b, String.leb (o_opened_at b) (o_opened_at a) = true)
      (detail_opens email_id s)
  ∧ detail_links email_id s ≡ₚ links_of s email_id
  ∧ StronglySorted
      (λ a b, String.leb (l_created_at a) (l_created_at b) = true)
      (detail_links email_id s)
  ∧ StronglySorted
      (λ a b, String.leb (c_clicked_at b.1) (c_clicked_at a.1) = true)
      (detail_clicks email_id s).
Proof.
  unfold detail_opens, detail_links, detail_clicks. repeat split.
  - apply sort_by_Permutation.
  - apply (sort_by_sorted (desc o_opened_at)); [apply desc_total | apply desc_trans].
  - apply sort_by_Permutation.
  - apply (sort_by_sorted (asc l_created_at)); [apply asc_total | apply asc_trans].
  - apply (sort_by_sorted (desc (λ cl : click_row * link_row, c_clicked_at cl.1)));
      [apply desc_total | apply desc_trans].
Qed.

(** Deleting an id the store does not hold touches nothing, since every
    dependent row references an email of the store. *)
Lemma purge_absent (email_id : string) (s : store) :
  refs_ok s → ¬ has_email s email_id → purge email_id s = s.
Proof.
  intros [Hl Ho Hc] Hno. unfold has_email, email_ids in *.
  rewrite Forall_forall in Hl. rewrite Forall_forall in Ho.
  rewrite Forall_forall in Hc.
  destruct s as [es os ls cs oseq cseq].
  unfold purge, delete_emails, delete_links, delete_opens, delete_clicks.
  simpl in *.
  f_equal; apply filter_all, Forall_forall.
  - intros e He Heq. apply Hno. rewrite <- Heq. by apply list_elem_of_fmap_2.
  - intros o Hin Heq. apply Hno. rewrite <- Heq. by apply Ho.
  - intros l Hin Heq. apply Hno. rewrite <- Heq. by apply Hl.
  - intros c Hin Heq. apply Hno. rewrite <- Heq.
    specialize (Hc c Hin). apply Exists_exists in Hc as (l & Hlin & _ & <-).
    by apply Hl.
Qed.

Lemma filter_filter_out {A} (P : A → Prop) `{∀ x, Decision (P x)} (l : list A) :
  filter P (filter (λ x, ¬ P x) l) = [].
Proof.
  apply filter_none, Forall_forall. by intros x [? _]%list_elem_of_filter.
Qed.

(** C4. [DELETE /api/emails/<email_id>], for any id: the answer is the
    success payload; the Email row and every Link, Open and Click row
    referencing the id are gone while all other rows stay; the detail
    view on the id then returns three empty sequences; and on a reachable
    store that does not hold the id nothing changes at all. *)
Theorem delete_email_cascades (email_id : string) (s : store) :
  let v := delete_email email_id s in
  v.2 = Return (jsonify (JDict [("success", JBool true)]))
  ∧ status (response_of v) = 200
  ∧ emails v.1 = filter (λ e, e_id e ≠ email_id) (emails s)
  ∧ links v.1 = filter (λ l, l_email_id l ≠ email_id) (links s)
  ∧ opens v.1 = filter (λ o, o_email_id o ≠ email_id) (opens s)
  ∧ clicks v.1 = filter (λ c, c_email_id c ≠ email_id) (clicks s)
  ∧ ¬ has_email v.1 email_id
  ∧ links_of v.1 email_id = []
  ∧ opens_of v.1 email_id = []
  ∧ clicks_of v.1 email_id = []
  ∧ get_email_detail email_id v.1
    = (v.1, Return (jsonify (JDict [("opens", JList []);
                                    ("links", JList []);
                                    ("clicks", JList [])])))
  ∧ (reachable s → ¬ has_email s email_id → v.1 = s).
Proof.
  intros v. subst v. rewrite delete_email_purge. simpl.
  assert (Ho : filter (λ o, o_email_id o = email_id)
                 (filter (λ o, o_email_id o ≠ email_id) (opens s)) = [])
    by apply (filter_filter_out (λ o, o_email_id o = email_id)).
  assert (Hl : filter (λ l, l_email_id l = email_id)
                 (filter (λ l, l_email_id l ≠ email_id) (links s)) = [])
    by apply (filter_filter_out (λ l, l_email_id l = email_id)).
  assert (Hc : filter (λ c, c_email_id c = email_id)
                 (filter (λ c, c_email_id c ≠ email_id) (clicks s)) = [])
    by apply (filter_filter_out (λ c, c_email_id c = email_id)).
  repeat split; try done.
  - unfold has_email, email_ids. simpl.
    intros (e & -> & [Hne _]%list_elem_of_filter)%list_elem_of_fmap. done.
  - unfold get_email_detail, detail_opens, detail_links, detail_clicks. simpl.
    rewrite Ho, Hl.
    replace (filter _ (inner_join _ _ _ _)) with (@nil (click_row * link_row));
      [done|].
    symmetry. apply filter_none, Forall_forall.
    intros [c l] Hin Heq. simpl in Heq. unfold inner_join in Hin.
    apply list_elem_of_bind in Hin as (c' & Hin & Hc').
    apply list_elem_of_fmap in Hin as (l' & [= -> ->] & _).
    by apply list_elem_of_filter in Hc' as [? _].
  - intros Hreach Hno. apply purge_absent; [|done].
    by apply reachable_store_inv.
Qed.

Lemma delete_email_cascades_witness :
  (delete_email "ffffffffffff" store_email).1 = store_email.
Proof.
  apply (delete_email_cascades "ffffffffffff" store_email).
  - exact reachable_store_email.
  - unfold has_email. compute_done.
Defined.

(** ** Events as the list view reports them *)

Lemma stats_listed (s : store) (e : email_row) :
  schema_ok s → e ∈ emails s → stats_of s e ∈ list_emails_query s.
Proof.
  intros Hok He. rewrite list_emails_query_Permutation by apply Hok.
  by apply list_elem_of_fmap_2.
Qed.

(** After a pixel hit on a known email the list view shows one more open
    for it and the same number of clicks. *)
Lemma listed_after_pixel (req : request) (now : timestamp) (s : store)
    (e : email_row) :
  schema_ok s → e ∈ emails s →
  let s' := (track_open req now (e_id e) s).1 in
  ∃ r, r ∈ list_emails_query s' ∧ s_id r = e_id e
       ∧ s_open_count r = S (open_count s (e_id e))
       ∧ s_click_count r = click_count s (e_id e).
Proof.
  intros Hok He s'.
  assert (Hhas : has_email s (e_id e)) by by apply list_elem_of_fmap_2.
  subst s'. rewrite track_open_found by done. simpl.
  set (s' := insert_open _ _ _ _ _ s).
  assert (Hok' : schema_ok s') by by apply schema_ok_insert_open.
  exists (stats_of s' e). split; [by apply stats_listed|]. split; [done|].
  destruct (stats_of_counts s' e Hok') as [-> ->].
  unfold open_count, opens_of, click_count. simpl. split; [|done].
  by apply count_snoc.
Qed.

(** After a click on a link of a known email the list view shows one more
    click and one more open for that email. *)
Lemma listed_after_click (req : request) (now : timestamp) (link_id : string)
    (s : store) (link : link_row) (e : email_row) :
  schema_ok s → e ∈ emails s →
  fetchone (select_link link_id (get_db s)) = Some link →
  l_email_id link = e_id e →
  let s' := (track_click req now link_id s).1 in
  ∃ r, r ∈ list_emails_query s' ∧ s_id r = e_id e
       ∧ s_open_count r = S (open_count s (e_id e))
       ∧ s_click_count r = S (click_count s (e_id e)).
Proof.
  intros Hok He Hsel Hmail s'. subst s'.
  rewrite (track_click_found _ _ _ _ link) by done. simpl.
  set (s' := insert_open _ _ _ _ _ _).
  assert (Hok' : schema_ok s')
    by by apply schema_ok_insert_open, schema_ok_insert_click.
  exists (stats_of s' e). split; [by apply stats_listed|]. split; [done|].
  destruct (stats_of_counts s' e Hok') as [-> ->].
  unfold open_count, opens_of, click_count, clicks_of. simpl.
  split; by apply count_snoc.
Qed.

(** The worked example of the specification: one email, two pixel hits,
    one link, one click. *)
Example two_opens_then_a_click :
  let e1 := "000000000000" in
  let s2 := (track_open (sample_request []) "2024-05-01 10:00:30" e1
               store_email).1 in
  let s3 := (track_open (sample_request []) "2024-05-01 10:00:40" e1 s2).1 in
  let s4 := (create_tracked_link
               (sample_request [("email_id", e1); ("url", "https://x.com")])
               "2024-05-01 10:00:50" 0 s3).1 in
  let v := track_click (sample_request []) "2024-05-01 10:01:00"
             "0000000000" s4 in
  s_open_count <$> list_emails_query s3 = [2%nat]
  ∧ status (response_of v) = 302
  ∧ headers (response_of v) = [("Location", Text "https://x.com")]
  ∧ (λ r, (s_open_count r, s_click_count r)) <$> list_emails_query v.1
    = [(3%nat, 1%nat)].
Proof. by vm_compute. Qed.

(** Emails created in the same second are listed in the order of their
    ids, whatever the order they were created in. *)
Example same_second_in_id_order :
  let req := sample_request [("recipient", "a@x.com"); ("subject", "Hi")] in
  let s1 := (create_tracked_email req "2024-05-01 10:00:00" (2 ^ 127)
               init_db).1 in
  let s2 := (create_tracked_email req "2024-05-01 10:00:00" 0 s1).1 in
  e_id <$> emails s2 = ["800000000000"; "000000000000"]
  ∧ s_id <$> list_emails_query s2 = ["000000000000"; "800000000000"].
Proof. by vm_compute. Qed.

(** ** Registration and identifiers *)

Lemma new_email_id_hex (rnd : N) : hex_string 12 (new_email_id rnd).
Proof.
  unfold new_email_id, Py.uuid_hex. split.
  - apply prefix_length. rewrite hex_digits_length. lia.
  - apply prefix_chars, hex_digits_hex.
Qed.

Lemma new_link_id_hex (rnd : N) : hex_string 10 (new_link_id rnd).
Proof.
  unfold new_link_id, Py.uuid_hex. split.
  - apply prefix_length. rewrite hex_digits_length. lia.
  - apply prefix_chars, hex_digits_hex.
Qed.






(** A field that is present but empty is treated like an absent one: with
    the email known and [url] given as the empty string the answer is the
    400 of the validation branch. *)
Lemma create_tracked_link_empty_url :
  let req := sample_request [("email_id", "000000000000");
                             ("url", EmptyString)] in
  field_value req "url" = Some (JStr EmptyString)
  ∧ has_email store_email "000000000000"
  ∧ create_tracked_link req "2024-05-01 10:00:09" 5 store_email
    = (store_email,
       Return (with_status
                 (jsonify (error_json "email_id and url are required")) 400)).
Proof.
  split; [by vm_compute|]. split; [unfold has_email; compute_done|].
  by eapply create_tracked_link_invalid; [|right].
Qed.



(** The generator contract as worded fails on a reachable store: the id
    drawn from the random bytes 1 is the key the store already holds. *)
Lemma generator_spec_fails :
  reachable store_email ∧ ¬ generator_spec 1 store_email.
Proof.
  split; [exact reachable_store_email|].
  intros (_ & _ & Hfresh & _). apply Hfresh. compute_done.
Qed.

(** C9 (amended). Every generated Email id is 12 hexadecimal characters
    and every generated Link id is 10. The generator reads the random
    bytes only: some reachable store already holds the id it returns as a
    key of the target table, and on a store that does, the insert of a
    valid request (its fields non-empty strings, the label of a link a
    string, null or left out) is refused with a uniqueness violation and
    the store is unchanged. *)
Theorem generated_ids (rnd : N) :
  hex_string 12 (new_email_id rnd)
  ∧ hex_string 10 (new_link_id rnd)
  ∧ (∃ s, reachable s ∧ new_email_id rnd ∈ email_ids s)
  ∧ (∃ s, reachable s ∧ new_link_id rnd ∈ link_ids s)
  ∧ (∀ req now s,
       field req "recipient" ≠ EmptyString →
       field req "subject" ≠ EmptyString →
       new_email_id rnd ∈ email_ids s →
       create_tracked_email req now rnd s
       = (s, Raise (IntegrityError "UNIQUE constraint failed: emails.id")))
  ∧ (∀ req now s label,
       field req "email_id" ≠ EmptyString → field req "url" ≠ EmptyString →
       field_value req "label" = Some (json_opt label) →
       has_email s (field req "email_id") →
       new_link_id rnd ∈ link_ids s →
       create_tracked_link req now rnd s
       = (s, Raise (IntegrityError "UNIQUE constraint failed: links.id"))).
Proof.
  split; [apply new_email_id_hex|]. split; [apply new_link_id_hex|].
  split; [|split; [|split]].
  - pose (req := sample_request [("recipient", "a@x.com"); ("subject", "Hi")]).
    exists (create_tracked_email req "2024-05-01 10:00:00" rnd init_db).1.
    split; [apply rtc_once, step_create_tracked_email|].
    rewrite create_tracked_email_fresh; [| done | done | ].
    + unfold email_ids. simpl. apply list_elem_of_singleton. done.
    + unfold email_ids. simpl. apply not_elem_of_nil.
  - pose (req := sample_request [("email_id", "000000000000");
                                 ("url", "https://x.com")]).
    exists (create_tracked_link req "2024-05-01 10:00:05" rnd store_email).1.
    split.
    + eapply rtc_r; [exact reachable_store_email|].
      apply step_create_tracked_link.
    + rewrite (create_tracked_link_fresh _ _ _ _ (JStr EmptyString)
                 (Some EmptyString)); [| done | done | done | done | | ].
      * unfold link_ids. simpl. by apply list_elem_of_singleton.
      * unfold has_email. compute_done.
      * unfold link_ids. simpl. apply not_elem_of_nil.
  - intros. by apply create_tracked_email_collision.
  - intros req now s label He Hu Hl Hhas Hdup.
    apply (create_tracked_link_collision _ _ _ _ (json_opt label) label);
      [done..| by destruct label | done | done].
Qed.

Lemma generated_ids_witness :
  create_tracked_email
    (sample_request [("recipient", "b@x.com"); ("subject", "Again")])
    "2024-05-01 10:00:09" 1 store_email
  = (store_email, Raise (IntegrityError "UNIQUE constraint failed: emails.id"))
  ∧ create_tracked_link
      (sample_request [("email_id", "000000000000"); ("url", "https://y.org")])
      "2024-05-01 10:00:09" 1 store_link
    = (store_link, Raise (IntegrityError "UNIQUE constraint failed: links.id")).
Proof.
  destruct (generated_ids 1) as (_ & _ & _ & _ & He & Hl). split.
  - apply He; [by vm_compute | by vm_compute | compute_done].
  - apply (Hl _ _ _ (Some EmptyString));
      [by vm_compute | by vm_compute | by vm_compute
      | unfold has_email; compute_done | compute_done].
Defined.

(** ** Attribution of clicks *)

Lemma NoDup_fmap_eq {A K} (f : A → K) (l : list A) (x y : A) :
  NoDup (f <$> l) → x ∈ l → y ∈ l → f x = f y → x = y.
Proof.
  induction l as [|a l IH]; [by intros _ ?%not_elem_of_nil|].
  rewrite fmap_cons, NoDup_cons. intros [Ha Hl].
  intros [->|Hx]%elem_of_cons [->|Hy]%elem_of_cons Heq; [done| | |by apply IH].
  - exfalso. apply Ha. rewrite Heq. by apply list_elem_of_fmap_2.
  - exfalso. apply Ha. rewrite <- Heq. by apply list_elem_of_fmap_2.
Qed.

(** C10. In every store reachable from the empty database, each Click row
    references a Link row of the store, and the Link row carrying the
    click's [link_id] carries the click's [email_id]. *)
Theorem click_email_is_link_email (s : store) :
  reachable s →
  ∀ c, c ∈ clicks s →
    (∃ l, l ∈ links s ∧ l_id l = c_link_id c)
    ∧ (∀ l, l ∈ links s → l_id l = c_link_id c →
         c_email_id c = l_email_id l).
Proof.
  intros [Hsch Href]%reachable_store_inv c Hc.
  destruct Href as [_ _ Hclicks]. rewrite Forall_forall in Hclicks.
  specialize (Hclicks c Hc).
  apply Exists_exists in Hclicks as (l0 & Hl0 & Hid & Hmail).
  split; [by exists l0|].
  intros l Hl Hlid.
  assert (l = l0) as ->; [|done].
  apply (NoDup_fmap_eq l_id (links s)); [apply Hsch|done|done|congruence].
Qed.

Lemma reachable_store_click : reachable store_click.
Proof.
  eapply rtc_r; [|apply step_track_click].
  eapply rtc_r; [|apply step_create_tracked_link].
  exact reachable_store_email.
Qed.

Lemma click_email_is_link_email_witness :
  sample_click ∈ clicks store_click
  ∧ sample_link ∈ links store_click
  ∧ c_email_id sample_click = l_email_id sample_link.
Proof.
  assert (Hc : sample_click ∈ clicks store_click) by (vm_compute; left).
  assert (Hl : sample_link ∈ links store_click) by (vm_compute; left).
  split; [exact Hc|]. split; [exact Hl|].
  exact (proj2 (click_email_is_link_email store_click reachable_store_click
                  sample_click Hc) sample_link Hl eq_refl).
Defined.

(** ** Further properties of the views *)

Lemma grown_refl {A} (l : list A) : grown l l.
Proof. by left. Qed.

Lemma grown_snoc {A} (l : list A) (x : A) : grown l (l ++ [x]).
Proof. right. by exists x. Qed.

Lemma appends_only_refl (s : store) : appends_only s s.
Proof. repeat split; apply grown_refl. Qed.

(** X1. The pixel, link, create-email and create-link views only ever
    append: whatever the request, each table afterwards is the table
    before, or the table before with one row added at its end. No row
    is updated or removed by them. *)
Theorem views_append_only
    (req : request) (now : timestamp) (id : string) (rnd : N) (s : store) :
  appends_only s (track_open req now id s).1
  ∧ appends_only s (track_click req now id s).1
  ∧ appends_only s (create_tracked_email req now rnd s).1
  ∧ appends_only s (create_tracked_link req now rnd s).1.
Proof.
  split; [|split; [|split]].
  - destruct (decide (id ∈ email_ids s)) as [Hhas|Hno].
    + rewrite track_open_found by done.
      repeat split; simpl; first [apply grown_snoc | apply grown_refl].
    + rewrite track_open_missing by done. apply appends_only_refl.
  - destruct (fetchone (select_link id (get_db s))) as [l|] eqn:Hsel.
    + rewrite (track_click_found _ _ _ _ l) by done.
      repeat split; simpl; first [apply grown_snoc | apply grown_refl].
    + apply select_link_None in Hsel. rewrite track_click_missing by done.
      apply appends_only_refl.
  - destruct (create_tracked_email_effect req now rnd s)
      as [[-> _]|(r & sub & Hfresh & ->)]; [apply appends_only_refl|].
    repeat split; simpl; first [apply grown_snoc | apply grown_refl].
  - destruct (create_tracked_link_effect req now rnd s)
      as [[-> _]|(e & u & l & Hhas & Hfresh & -> & _)];
      [apply appends_only_refl|].
    repeat split; simpl; first [apply grown_snoc | apply grown_refl].
Qed.

Lemma refs_ok_emails (s : store) :
  refs_ok s →
  (∀ l, l ∈ links s → has_email s (l_email_id l))
  ∧ (∀ o, o ∈ opens s → has_email s (o_email_id o))
  ∧ (∀ c, c ∈ clicks s →
       has_email s (c_email_id c) ∧ c_link_id c ∈ link_ids s).
Proof.
  intros [Hl Ho Hc].
  rewrite Forall_forall in Hl. rewrite Forall_forall in Ho.
  rewrite Forall_forall in Hc.
  split; [exact Hl|]. split; [exact Ho|].
  intros c Hin. specialize (Hc c Hin).
  apply Exists_exists in Hc as (l & Hlin & Hid & Hmail). split.
  - rewrite <- Hmail. by apply Hl.
  - rewrite <- Hid. by apply list_elem_of_fmap_2.
Qed.

(** X2. No orphaned rows: in every store reachable from the empty
    database each Link and each Open references an Email of the store,
    and each Click references an Email and a Link of the store. *)
Theorem no_orphan_rows (s : store) :
  reachable s →
  (∀ l, l ∈ links s → has_email s (l_email_id l))
  ∧ (∀ o, o ∈ opens s → has_email s (o_email_id o))
  ∧ (∀ c, c ∈ clicks s →
       has_email s (c_email_id c) ∧ c_link_id c ∈ link_ids s).
Proof.
  intros [_ Href]%reachable_store_inv. by apply refs_ok_emails.
Qed.

Lemma no_orphan_rows_witness :
  has_email store_click (c_email_id sample_click)
  ∧ c_link_id sample_click ∈ link_ids store_click.
Proof.
  assert (Hc : sample_click ∈ clicks store_click) by (vm_compute; left).
  exact (proj2 (proj2 (no_orphan_rows store_click reachable_store_click))
           sample_click Hc).
Defined.

Lemma filter_filter_and {A} (P Q : A → Prop) `{∀ x, Decision (P x)}
    `{∀ x, Decision (Q x)} (l : list A) :
  (∀ x, P x → Q x) → filter P (filter Q l) = filter P l.
Proof.
  intros HPQ. induction l as [|x l IH]; [done|].
  destruct (decide (Q x)) as [HQ|HQ].
  - rewrite (filter_cons_True Q) by done.
    destruct (decide (P x)) as [HP|HP].
    + rewrite !(filter_cons_True P) by done. by f_equal.
    + by rewrite !(filter_cons_False P).
  - rewrite (filter_cons_False Q) by done.
    rewrite (filter_cons_False P); [done|]. intros HP. by apply HQ, HPQ.
Qed.

Lemma companions_step (s s' : store) : step s s' → companions s → companions s'.
Proof.
  intros Hstep Hco e. specialize (Hco e).
  unfold link_opens_of, click_count, clicks_of in *. destruct Hstep.
  - destruct (decide (email_id ∈ email_ids s)) as [Hhas|Hno].
    + rewrite track_open_found by done. simpl.
      rewrite filter_app, filter_cons_False, filter_nil, app_nil_r; [done|].
      simpl. by intros [_ ?].
    + by rewrite track_open_missing.
  - destruct (fetchone (select_link link_id (get_db s))) as [l|] eqn:Hsel.
    + rewrite (track_click_found _ _ _ _ l) by done. simpl.
      rewrite !filter_app, !length_app, Hco. f_equal.
      destruct (decide (l_email_id l = e)) as [Heq|Hne].
      * rewrite !filter_cons_True; done.
      * rewrite !filter_cons_False; [done| |]; simpl; [done|by intros [? _]].
    + apply select_link_None in Hsel. by rewrite track_click_missing.
  - destruct (create_tracked_email_effect req now rnd s)
      as [[-> _]|(r & sub & Hfresh & ->)]; done.
  - destruct (create_tracked_link_effect req now rnd s)
      as [[-> _]|(e0 & u & l & Hhas & Hfresh & -> & _)]; done.
  - done.
  - done.
  - rewrite delete_email_purge. simpl.
    destruct (decide (e = email_id)) as [->|Hne].
    + rewrite !filter_none; [done| |]; apply Forall_forall.
      * by intros c [? _]%list_elem_of_filter.
      * intros o [? _]%list_elem_of_filter [? _]. done.
    + rewrite !filter_filter_and; [done| |].
      * intros c ->. done.
      * intros o [-> _]. done.
Qed.

Lemma reachable_companions (s : store) : reachable s → companions s.
Proof.
  unfold reachable. revert s. apply rtc_ind_r.
  - by intros e.
  - intros s1 s2 _ Hstep IH. by eapply companions_step.
Qed.

(** X3. In every reachable store and for every email id, the number of
    Click rows equals the number of Open rows the link handler recorded
    (method [link]); so an email never shows more clicks than opens. *)
Theorem clicks_have_companion_opens (s : store) (email_id : string) :
  reachable s →
  click_count s email_id = length (link_opens_of s email_id)
  ∧ (click_count s email_id ≤ open_count s email_id)%nat.
Proof.
  intros Hco%reachable_companions. specialize (Hco email_id).
  split; [done|]. rewrite <- Hco.
  unfold link_opens_of, open_count, opens_of.
  rewrite <- (filter_filter_and (λ o, o_email_id o = email_id
                                      ∧ o_method o = "link")
                (λ o, o_email_id o = email_id)) by (by intros o [? _]).
  apply length_filter.
Qed.

Lemma clicks_have_companion_opens_witness :
  click_count store_click "000000000000" = 1%nat
  ∧ (click_count store_click "000000000000"
     ≤ open_count store_click "000000000000")%nat.
Proof.
  destruct (clicks_have_companion_opens store_click "000000000000"
              reachable_store_click) as [Heq Hle].
  split; [by rewrite Heq | exact Hle].
Defined.

(** X4. The detail view makes no existence check: on a reachable store,
    for an id no Email has, it answers 200 with three empty sequences and
    leaves the store as it is. *)
Theorem get_email_detail_unknown (email_id : string) (s : store) :
  reachable s → ¬ has_email s email_id →
  get_email_detail email_id s
  = (s, Return {| status := 200; mimetype := "application/json";
                  headers := [];
                  payload := Json (JDict [("opens", JList []);
                                          ("links", JList []);
                                          ("clicks", JList [])]) |}).
Proof.
  intros Hreach Hno.
  apply reachable_store_inv in Hreach as [_ Href].
  destruct (refs_ok_emails s Href) as (Hl & Ho & Hc).
  unfold get_email_detail, detail_opens, detail_links, detail_clicks. simpl.
  rewrite (filter_none (λ o, o_email_id o = email_id));
    [|apply Forall_forall; intros o Hin <-; by apply Hno, Ho].
  rewrite (filter_none (λ l, l_email_id l = email_id));
    [|apply Forall_forall; intros l Hin <-; by apply Hno, Hl].
  rewrite (filter_none (λ cl : click_row * link_row, c_email_id cl.1 = email_id));
    [done|].
  apply Forall_forall. intros [c l] Hin Heq. simpl in Heq.
  unfold inner_join in Hin.
  apply list_elem_of_bind in Hin as (c' & Hin & Hc').
  apply list_elem_of_fmap in Hin as (l' & [= -> ->] & _).
  apply Hno. rewrite <- Heq. by apply Hc.
Qed.

Lemma get_email_detail_unknown_witness :
  get_email_detail "ffffffffffff" store_click
  = (store_click,
     Return {| status := 200; mimetype := "application/json";
               headers := [];
               payload := Json (JDict [("opens", JList []);
                                       ("links", JList []);
                                       ("clicks", JList [])]) |}).
Proof.
  apply get_email_detail_unknown; [exact reachable_store_click|].
  unfold has_email. compute_done.
Defined.

(** ** Further properties of the detail view *)

Lemma fmap_fst_filter {A B} (P : A → Prop) `{∀ x, Decision (P x)}
    (l : list (A * B)) :
  fst <$> filter (λ ab, P ab.1) l = filter P (fst <$> l).
Proof.
  induction l as [|[a b] l IH]; [done|]. rewrite fmap_cons. simpl.
  destruct (decide (P a)) as [HP|HP].
  - rewrite (filter_cons_True P), (filter_cons_True (λ ab, P ab.1)) by done.
    rewrite fmap_cons. by f_equal.
  - by rewrite (filter_cons_False P), (filter_cons_False (λ ab, P ab.1)).
Qed.

(** With a unique key, the rows matching the key of a row of the table
    are that row alone. *)
Lemma filter_key_singleton {A K} `{EqDecision K} (f : A → K) (l : list A)
    (k : K) (x : A) :
  NoDup (f <$> l) → x ∈ l → f x = k → filter (λ y, k = f y) l = [x].
Proof.
  intros Hnd Hx <-. induction l as [|a l IH]; [by apply not_elem_of_nil in Hx|].
  rewrite fmap_cons, NoDup_cons in Hnd. destruct Hnd as [Ha Hnd].
  apply elem_of_cons in Hx as [->|Hx].
  - rewrite filter_cons_True by done. f_equal.
    apply filter_none, Forall_forall. intros y Hy Heq. apply Ha.
    rewrite Heq. by apply list_elem_of_fmap_2.
  - rewrite filter_cons_False; [by apply IH|].
    intros Heq. apply Ha. rewrite <- Heq. by apply list_elem_of_fmap_2.
Qed.

(** On a store that keeps its invariants the join of [clicks] with
    [links] pairs each click, in table order, with its one link. *)
Lemma clicks_join_links (s : store) :
  store_inv s →
  fst <$> inner_join c_link_id l_id (clicks s) (links s) = clicks s
  ∧ Forall (λ cl, cl.2 ∈ links s ∧ l_id cl.2 = c_link_id cl.1
                  ∧ l_email_id cl.2 = c_email_id cl.1)
      (inner_join c_link_id l_id (clicks s) (links s)).
Proof.
  intros [[_ Hpk _ _ _ _] [_ _ Hc]]. unfold inner_join.
  induction Hc as [|c cs Hex _ IH]; [by split; [|constructor]|].
  apply Exists_exists in Hex as (l & Hl & Hid & Hmail).
  rewrite bind_cons.
  rewrite (filter_key_singleton l_id (links s) (c_link_id c) l) by done.
  destruct IH as [IH1 IH2]. split.
  - rewrite fmap_app. simpl. by f_equal.
  - apply Forall_app. split; [|done]. by repeat constructor.
Qed.



(** X6. On a reachable store the click history of the detail view loses
    and repeats nothing: its clicks are exactly the Click rows of the
    email, each once, and each is annotated with the Link row its
    [link_id] names, a link of that same email. *)
Theorem detail_view_clicks_complete (email_id : string) (s : store) :
  reachable s →
  fst <$> detail_clicks email_id s ≡ₚ clicks_of s email_id
  ∧ (∀ c l, (c, l) ∈ detail_clicks email_id s →
       l ∈ links s ∧ l_id l = c_link_id c ∧ l_email_id l = email_id).
Proof.
  intros Hinv%reachable_store_inv.
  destruct (clicks_join_links s Hinv) as [Hfst Hall].
  unfold detail_clicks. split.
  - rewrite sort_by_Permutation.
    pose proof (fmap_fst_filter (λ c, c_email_id c = email_id)
                  (inner_join c_link_id l_id (clicks s) (links s))) as Hf.
    simpl in Hf. rewrite Hf. by rewrite Hfst.
  - intros c l Hin. rewrite sort_by_Permutation in Hin.
    apply list_elem_of_filter in Hin as [Hmail Hin]. simpl in Hmail.
    rewrite Forall_forall in Hall. destruct (Hall _ Hin) as (Hl & Hid & Hm).
    simpl in *. repeat split; [done..|congruence].
Qed.

Lemma detail_view_clicks_complete_witness :
  fst <$> detail_clicks "000000000000" store_click
    ≡ₚ clicks_of store_click "000000000000"
  ∧ detail_clicks "000000000000" store_click = [(sample_click, sample_link)].
Proof.
  split; [|reflexivity].
  exact (proj1 (detail_view_clicks_complete "000000000000" store_click
                  reachable_store_click)).
Defined.

(** ** Further properties of the list view *)



















(** ** The dashboard figures *)

Section DashboardFacts.
Import Dashboard.

Lemma number_open_count (r : email_stats) :
  number "open_count" (stats_json r) = Some (s_open_count r).
Proof. reflexivity. Qed.

Lemma number_click_count (r : email_stats) :
  number "click_count" (stats_json r) = Some (s_click_count r).
Proof. reflexivity. Qed.

Lemma total_stats (k : string) (f : email_stats → nat)
    (rows : list email_stats) :
  (∀ r, number k (stats_json r) = Some (f r)) →
  total k (stats_json <$> rows) = Some (sum_list_with f rows).
Proof.
  intros Hk. unfold total.
  change (Some (sum_list_with f rows))
    with (Some (0 + sum_list_with f rows)%nat).
  generalize 0%nat. induction rows as [|r rows IH]; intros a; simpl.
  - f_equal. lia.
  - rewrite Hk. simpl. rewrite IH. f_equal. lia.
Qed.

Lemma is_engaged_stats (r : email_stats) :
  is_engaged (stats_json r)
  = Some (Nat.ltb 0 (s_open_count r) || Nat.ltb 0 (s_click_count r)).
Proof.
  unfold is_engaged. rewrite number_open_count. cbn [mbind option_bind].
  destruct (Nat.ltb 0 (s_open_count r)); [done|].
  by rewrite number_click_count.
Qed.

Lemma count_engaged_stats (rows : list email_stats) :
  count_engaged (stats_json <$> rows) = Some (length (filter active rows)).
Proof.
  unfold count_engaged. induction rows as [|r rows IH]; [done|].
  rewrite fmap_cons. cbn [foldr]. rewrite IH, is_engaged_stats.
  cbn [mbind option_bind]. f_equal. unfold active at 2.
  destruct (Nat.ltb_spec 0 (s_open_count r)) as [Ho|Ho];
    destruct (Nat.ltb_spec 0 (s_click_count r)) as [Hc|Hc]; simpl.
  - rewrite filter_cons_True; [done|]. unfold active. lia.
  - rewrite filter_cons_True; [done|]. unfold active. lia.
  - rewrite filter_cons_True; [done|]. unfold active. lia.
  - rewrite filter_cons_False; [done|]. unfold active. lia.
Qed.

End DashboardFacts.

Lemma sum_list_with_ext_in {A} (f g : A → nat) (l : list A) :
  (∀ x, x ∈ l → f x = g x) → sum_list_with f l = sum_list_with g l.
Proof.
  induction l as [|x l IH]; intros Hfg; [done|]. simpl.
  rewrite (Hfg x) by left. rewrite IH; [done|].
  intros y Hy. apply Hfg. by right.
Qed.

Lemma sum_list_with_fmap {A B} (f : B → nat) (g : A → B) (l : list A) :
  sum_list_with f (g <$> l) = sum_list_with (λ x, f (g x)) l.
Proof.
  induction l as [|x l IH]; [done|]. rewrite fmap_cons.
  cbn [sum_list_with]. by f_equal.
Qed.

(** Rows that each carry a key of a duplicate-free key list are counted
    once when they are counted key by key. *)
Lemma count_by_key {A B K} `{EqDecision K} (k : A → K) (key : B → K)
    (es : list A) (os : list B) :
  NoDup (k <$> es) → Forall (λ o, key o ∈ k <$> es) os →
  sum_list_with (λ e, length (filter (λ o, key o = k e) os)) es = length os.
Proof.
  revert os. induction es as [|e es IH]; intros os Hnd Hall.
  - destruct os as [|o os]; [done|].
    apply Forall_cons in Hall as [Ho _]. by apply not_elem_of_nil in Ho.
  - rewrite fmap_cons, NoDup_cons in Hnd. destruct Hnd as [He Hnd]. simpl.
    rewrite <- (Permutation_length (filter_app_complement (λ o, key o = k e) os)).
    rewrite length_app. f_equal.
    rewrite <- (IH (filter (λ o, ¬ key o = k e) os) Hnd).
    + apply sum_list_with_ext_in. intros e' He'. f_equal. symmetry.
      apply (filter_filter_and (λ o, key o = k e')). intros o Ho Heq.
      apply He. rewrite <- Heq, Ho. by apply list_elem_of_fmap_2.
    + apply Forall_forall. intros o [Hne Ho]%list_elem_of_filter.
      rewrite Forall_forall in Hall. specialize (Hall o Ho).
      rewrite fmap_cons in Hall. by apply elem_of_cons in Hall as [?|?].
Qed.

Lemma length_filter_fmap {A B} (P : B → Prop) `{∀ x, Decision (P x)}
    (f : A → B) (l : list A) :
  length (filter P (f <$> l)) = length (filter (λ x, P (f x)) l).
Proof.
  induction l as [|x l IH]; [done|]. rewrite fmap_cons.
  destruct (decide (P (f x))) as [HP|HP].
  - rewrite (filter_cons_True P), (filter_cons_True (λ x, P (f x))) by done.
    simpl. by rewrite IH.
  - by rewrite (filter_cons_False P), (filter_cons_False (λ x, P (f x))).
Qed.

(** X12. The dashboard's figures on a reachable store: [loadEmails]
    computes, from the answer of [GET /api/emails], the number of Email
    rows as total emails, the number of all Open rows as total opens, the
    number of all Click rows as total clicks, and as engaged the number of
    emails that have at least one Open or Click row. *)
Theorem dashboard_totals (s : store) :
  reachable s →
  Dashboard.loadEmails (response_of (list_emails s))
  = Some {| Dashboard.totalEmails := length (emails s);
            Dashboard.totalOpens := length (opens s);
            Dashboard.totalClicks := length (clicks s);
            Dashboard.engaged :=
              length (filter (λ e, opens_of s (e_id e) ≠ []
                                   ∨ clicks_of s (e_id e) ≠ []) (emails s)) |}.
Proof.
  intros [Hsch Href]%reachable_store_inv.
  destruct (refs_ok_emails s Href) as (_ & Ho & Hc).
  assert (Hrows : list_emails_query s ≡ₚ stats_of s <$> emails s)
    by apply list_emails_query_Permutation, Hsch.
  unfold Dashboard.loadEmails, response_of, list_emails. simpl.
  rewrite (total_stats "open_count" s_open_count) by apply number_open_count.
  rewrite (total_stats "click_count" s_click_count) by apply number_click_count.
  rewrite count_engaged_stats. simpl. rewrite length_fmap.
  rewrite !Hrows, length_fmap, !sum_list_with_fmap, length_filter_fmap.
  f_equal. f_equal.
  - rewrite <- (count_by_key e_id o_email_id (emails s) (opens s));
      [|apply Hsch|by apply Forall_forall].
    apply sum_list_with_ext_in. intros e _.
    by destruct (stats_of_counts s e Hsch) as [-> _].
  - rewrite <- (count_by_key e_id c_email_id (emails s) (clicks s));
      [|apply Hsch|apply Forall_forall; intros c Hin; by apply Hc].
    apply sum_list_with_ext_in. intros e _.
    by destruct (stats_of_counts s e Hsch) as [_ ->].
  - f_equal. apply list_filter_iff. intros e. unfold active.
    destruct (stats_of_counts s e Hsch) as [-> ->].
    unfold open_count, click_count.
    destruct (opens_of s (e_id e)), (clicks_of s (e_id e)); simpl;
      split; intros [?|?]; first [lia | done | (left; done) | (right; done)
                                  | (left; lia) | (right; lia)].
Qed.

Lemma dashboard_totals_witness :
  Dashboard.loadEmails (response_of (list_emails store_click))
  = Some {| Dashboard.totalEmails := 1; Dashboard.totalOpens := 1;
            Dashboard.totalClicks := 1; Dashboard.engaged := 1 |}.
Proof.
  rewrite (dashboard_totals store_click reachable_store_click). reflexivity.
Defined.

(** ** Row ids, round trips, failures and deletion *)

Lemma ids_advance_refl (s : store) : ids_advance s s.
Proof. repeat split; try lia; intros; by left. Qed.

Lemma ids_advance_insert_open now id ip ua m (s : store) :
  ids_advance s (insert_open now id ip ua m s).
Proof.
  repeat split; simpl; try lia; [|by left].
  intros o [?|Heq%list_elem_of_singleton]%elem_of_app; [by left|].
  subst o. right. simpl. lia.
Qed.

Lemma ids_advance_insert_click now lid id ip ua (s : store) :
  ids_advance s (insert_click now lid id ip ua s).
Proof.
  repeat split; simpl; try lia; [by left|].
  intros c [?|Heq%list_elem_of_singleton]%elem_of_app; [by left|].
  subst c. right. simpl. lia.
Qed.

Lemma ids_advance_trans (s1 s2 s3 : store) :
  ids_advance s1 s2 → ids_advance s2 s3 → ids_advance s1 s3.
Proof.
  intros (Ho1 & Hc1 & Hno1 & Hnc1) (Ho2 & Hc2 & Hno2 & Hnc2).
  repeat split; try lia.
  - intros o Hin. destruct (Hno2 o Hin) as [Hin'|Hlt]; [|right; lia].
    by apply Hno1.
  - intros c Hin. destruct (Hnc2 c Hin) as [Hin'|Hlt]; [|right; lia].
    by apply Hnc1.
Qed.

Lemma ids_advance_step (s s' : store) : step s s' → ids_advance s s'.
Proof.
  destruct 1.
  - destruct (decide (email_id ∈ email_ids s)) as [Hhas|Hno].
    + rewrite track_open_found by done. apply ids_advance_insert_open.
    + rewrite track_open_missing by done. apply ids_advance_refl.
  - destruct (fetchone (select_link link_id (get_db s))) as [l|] eqn:Hsel.
    + rewrite (track_click_found _ _ _ _ l) by done. simpl.
      eapply ids_advance_trans;
        [apply ids_advance_insert_click | apply ids_advance_insert_open].
    + apply select_link_None in Hsel. rewrite track_click_missing by done.
      apply ids_advance_refl.
  - destruct (create_tracked_email_effect req now rnd s)
      as [[-> _]|(r & sub & Hfresh & ->)]; [apply ids_advance_refl|].
    repeat split; simpl; try lia; intros; by left.
  - destruct (create_tracked_link_effect req now rnd s)
      as [[-> _]|(e & u & l & Hhas & Hfresh & -> & _)];
      [apply ids_advance_refl|].
    repeat split; simpl; try lia; intros; by left.
  - apply ids_advance_refl.
  - apply ids_advance_refl.
  - rewrite delete_email_purge.
    repeat split; simpl; try lia.
    + intros o [_ ?]%list_elem_of_filter. by left.
    + intros c [_ ?]%list_elem_of_filter. by left.
Qed.

Lemma ids_advance_run (s s' : store) : rtc step s s' → ids_advance s s'.
Proof.
  induction 1 as [|s1 s2 s3 Hstep _ IH]; [apply ids_advance_refl|].
  eapply ids_advance_trans; [by apply ids_advance_step | exact IH].
Qed.

(** X13. Row ids of opens and clicks are never reused. Along any run
    of requests from a reachable store, deletions included, every Open
    row found afterwards is a row that was already there or has an id
    larger than every id the store had handed out so far; the same holds
    for Click rows. In particular no later row takes the id of a row
    that was deleted. *)
Theorem row_ids_never_reused (s s' : store) :
  reachable s → rtc step s s' →
  (∀ o, o ∈ opens s → o_id o ≤ opens_seq s)
  ∧ (∀ c, c ∈ clicks s → c_id c ≤ clicks_seq s)
  ∧ (∀ o', o' ∈ opens s' →
       o' ∈ opens s ∨ ∀ o, o ∈ opens s → o_id o < o_id o')
  ∧ (∀ c', c' ∈ clicks s' →
       c' ∈ clicks s ∨ ∀ c, c ∈ clicks s → c_id c < c_id c').
Proof.
  intros [[_ _ _ _ Hos Hcs] _]%reachable_store_inv Hrun.
  rewrite Forall_forall in Hos. rewrite Forall_forall in Hcs.
  destruct (ids_advance_run s s' Hrun) as (_ & _ & Hno & Hnc).
  split; [exact Hos|]. split; [exact Hcs|]. split.
  - intros o' Hin. destruct (Hno o' Hin) as [?|Hlt]; [by left|]. right.
    intros o Ho. specialize (Hos o Ho). lia.
  - intros c' Hin. destruct (Hnc c' Hin) as [?|Hlt]; [by left|]. right.
    intros c Hc. specialize (Hcs c Hc). lia.
Qed.

Lemma row_ids_never_reused_witness :
  let s1 := (delete_email "000000000000" store_click).1 in
  let s2 := (create_tracked_email
               (sample_request [("recipient", "a@x.com"); ("subject", "Hi")])
               "2024-05-01 10:03:00" 0 s1).1 in
  let s3 := (track_open (sample_request []) "2024-05-01 10:04:00"
               "000000000000" s2).1 in
  let o' := {| o_id := 2; o_email_id := "000000000000";
               o_opened_at := "2024-05-01 10:04:00";
               o_ip_address := Some "203.0.113.7";
               o_user_agent := "Mozilla/5.0"; o_method := "pixel" |} in
  opens s3 = [o']
  ∧ (o' ∈ opens store_click ∨ ∀ o, o ∈ opens store_click → o_id o < o_id o').
Proof.
  intros s1 s2 s3 o'. split; [reflexivity|].
  refine (proj1 (proj2 (proj2 (row_ids_never_reused store_click s3
                                 reachable_store_click _))) o' _).
  - eapply rtc_l; [apply (step_delete_email "000000000000")|].
    eapply rtc_l; [apply (step_create_tracked_email
                            (sample_request [("recipient", "a@x.com");
                                             ("subject", "Hi")])
                            "2024-05-01 10:03:00" 0)|].
    apply rtc_once, step_track_open.
  - vm_compute. left.
Defined.

(** X14. Register then follow: once [POST /api/link] has persisted a
    link for an existing email (the label a string, null or left out),
    [GET /l/<link_id>] with the id it returned redirects to the URL that
    was registered, with that URL as the [Location] when it is made of
    non-blank ASCII characters, and attributes the click, and its
    companion open, to the email the link was registered for. *)
Theorem registered_link_redirects
    (req req' : request) (now now' : timestamp) (rnd : N) (s : store)
    (label : option string) :
  field req "email_id" ≠ EmptyString → field req "url" ≠ EmptyString →
  field_value req "label" = Some (json_opt label) →
  has_email s (field req "email_id") →
  new_link_id rnd ∉ link_ids s →
  let s1 := (create_tracked_link req now rnd s).1 in
  let v := track_click req' now' (new_link_id rnd) s1 in
  v.2 = redirect (field req "url")
  ∧ (Forall (λ c, 32 < N_of_ascii c < 128) (Py.chars (field req "url")) →
     v.2 = Return {| status := 302; mimetype := "text/html";
                     headers := [("Location", Text (field req "url"))];
                     payload := RedirectPage (field req "url") |})
  ∧ clicks v.1 = clicks s ++
      [{| c_id := clicks_seq s + 1; c_link_id := new_link_id rnd;
          c_email_id := field req "email_id"; c_clicked_at := now';
          c_ip_address := client_ip req'; c_user_agent := user_agent req' |}]
  ∧ opens v.1 = opens s ++
      [{| o_id := opens_seq s + 1; o_email_id := field req "email_id";
          o_opened_at := now'; o_ip_address := client_ip req';
          o_user_agent := user_agent req'; o_method := "link" |}].
Proof.
  intros He Hu Hl Hhas Hfresh s1 v. subst s1 v.
  rewrite (create_tracked_link_fresh _ _ _ _ (json_opt label) label);
    [|done..|by destruct label|done|done]. simpl.
  set (link := {| l_id := new_link_id rnd; l_email_id := field req "email_id";
                  l_original_url := field req "url";
                  l_label := label; l_created_at := now |}).
  rewrite (track_click_found _ _ _ _ link).
  - simpl. split; [done|]. split; [|done].
    intros Hall. by apply redirect_plain.
  - unfold select_link. simpl.
    rewrite filter_app, (filter_none _ (links s)), filter_cons_True; [done..|].
    apply Forall_forall. intros l Hin Heq. apply Hfresh.
    rewrite <- Heq. by apply list_elem_of_fmap_2.
Qed.

Lemma registered_link_redirects_witness :
  (track_click (sample_request []) "2024-05-01 10:05:00" "8000000000"
     (create_tracked_link
        (sample_request [("email_id", "000000000000");
                         ("url", "https://y.org")])
        "2024-05-01 10:04:00" (2 ^ 127) store_email).1).2
  = Return {| status := 302; mimetype := "text/html";
              headers := [("Location", Text "https://y.org")];
              payload := RedirectPage "https://y.org" |}.
Proof.
  refine (proj1 (proj2 (registered_link_redirects
                   (sample_request [("email_id", "000000000000");
                                    ("url", "https://y.org")])
                   (sample_request []) "2024-05-01 10:04:00"
                   "2024-05-01 10:05:00" (2 ^ 127) store_email
                   (Some EmptyString) _ _ _ _ _)) _).
  - by vm_compute.
  - by vm_compute.
  - by vm_compute.
  - unfold has_email. compute_done.
  - compute_done.
  - compute_done.
Defined.

(** X15. Error answers and writes. The create-email and create-link
    views have written nothing whenever they answer with a status of 400
    or more. The link view has written nothing when it answers with such
    a status, unless the URL of the link holds a line break: then the
    click and its open were committed before the redirect failed. The
    delete, list and detail views always answer 200, and the latter two
    leave the store as it is. The pixel view, for a known email, commits
    the Open row and then answers 500. *)
Theorem failed_requests_write_nothing
    (req : request) (now : timestamp) (id : string) (rnd : N) (s : store) :
  (400 ≤ status (response_of (create_tracked_email req now rnd s)) →
     (create_tracked_email req now rnd s).1 = s)
  ∧ (400 ≤ status (response_of (create_tracked_link req now rnd s)) →
     (create_tracked_link req now rnd s).1 = s)
  ∧ (400 ≤ status (response_of (track_click req now id s)) →
     (track_click req now id s).1 = s
     ∨ ∃ link, link ∈ links s ∧ l_id link = id
               ∧ has_newline (l_original_url link) = true
               ∧ length (clicks (track_click req now id s).1)
                 = S (length (clicks s)))
  ∧ status (response_of (delete_email id s)) = 200
  ∧ (list_emails s).1 = s
  ∧ status (response_of (list_emails s)) = 200
  ∧ (get_email_detail id s).1 = s
  ∧ status (response_of (get_email_detail id s)) = 200
  ∧ (has_email s id →
     status (response_of (track_open req now id s)) = 500
     ∧ (track_open req now id s).1 ≠ s).
Proof.
  split; [|split; [|split]].
  - destruct (create_tracked_email_effect req now rnd s)
      as [[? _]|(r & sub & _ & ->)]; [done|].
    unfold response_of. simpl. lia.
  - destruct (create_tracked_link_effect req now rnd s)
      as [[? _]|(e & u & l & _ & _ & _ & ->)]; [done|]. lia.
  - destruct (fetchone (select_link id (get_db s))) as [l|] eqn:Hsel.
    + rewrite (track_click_found _ _ _ _ l) by done.
      apply select_link_Some in Hsel as [Hin Hid].
      destruct (redirect_cases (l_original_url l)) as [[_ ->]|[Hnl _]].
      * unfold response_of. simpl. lia.
      * intros _. right. exists l. simpl. rewrite length_app. simpl.
        repeat split; [done..|lia].
    + apply select_link_None in Hsel. rewrite track_click_missing by done.
      by left.
  - do 5 (split; [done|]). intros Hhas.
    rewrite track_open_found by done. split; [done|]. intros Heq.
    apply (f_equal (λ s, length (opens s))) in Heq. simpl in Heq.
    rewrite length_app in Heq. simpl in Heq. lia.
Qed.

Lemma failed_requests_write_nothing_witness :
  (create_tracked_email
     (sample_request [("recipient", "b@x.com"); ("subject", "Again")])
     "2024-05-01 10:00:09" 1 store_email).1 = store_email
  ∧ (track_open
       (sample_request [("recipient", "b@x.com"); ("subject", "Again")])
       "2024-05-01 10:00:09" "000000000000" store_email).1 ≠ store_email.
Proof.
  pose proof (failed_requests_write_nothing
                (sample_request [("recipient", "b@x.com"); ("subject", "Again")])
                "2024-05-01 10:00:09" "000000000000" 1 store_email)
    as (Hmail & _ & _ & _ & _ & _ & _ & _ & Hpixel).
  split.
  - apply Hmail. by vm_compute.
  - apply Hpixel. unfold has_email. compute_done.
Defined.

(** ** Deletion *)

Lemma filter_comm {A} (P Q : A → Prop) `{∀ x, Decision (P x)}
    `{∀ x, Decision (Q x)} (l : list A) :
  filter P (filter Q l) = filter Q (filter P l).
Proof.
  rewrite !list_filter_filter. apply list_filter_iff. intros x. tauto.
Qed.

(** X16. Deletion is idempotent and order-independent on any store:
    deleting an id a second time changes nothing and still reports
    success, and deleting two ids leaves the same store whichever is
    deleted first. *)
Theorem delete_email_idempotent_commutes (a b : string) (s : store) :
  delete_email a (delete_email a s).1
  = ((delete_email a s).1,
     Return (jsonify (JDict [("success", JBool true)])))
  ∧ (delete_email a (delete_email b s).1).1
    = (delete_email b (delete_email a s).1).1.
Proof.
  rewrite !delete_email_purge. simpl. split.
  - f_equal.
    unfold purge, delete_emails, delete_links, delete_opens, delete_clicks.
    simpl. f_equal.
    + by apply (filter_filter_and (λ e, e_id e ≠ a)).
    + by apply (filter_filter_and (λ o, o_email_id o ≠ a)).
    + by apply (filter_filter_and (λ l, l_email_id l ≠ a)).
    + by apply (filter_filter_and (λ c, c_email_id c ≠ a)).
  - unfold purge, delete_emails, delete_links, delete_opens, delete_clicks.
    simpl. f_equal.
    + apply (filter_comm (λ e, e_id e ≠ a)).
    + apply (filter_comm (λ o, o_email_id o ≠ a)).
    + apply (filter_comm (λ l, l_email_id l ≠ a)).
    + apply (filter_comm (λ c, c_email_id c ≠ a)).
Qed.

(** ** The base URL and the identifiers *)

Lemma append_nil_l (x : string) : EmptyString +:+ x = x.
Proof. reflexivity. Qed.

Lemma append_cons (a : ascii) (s x : string) :
  String a s +:+ x = String a (s +:+ x).
Proof. reflexivity. Qed.

Lemma rstrip_decompose (c : ascii) (s : string) :
  ∃ n, s = Py.rstrip c s +:+ repeat_char c n.
Proof.
  induction s as [|a s [n IH]]; [by exists 0%nat|]. cbn [Py.rstrip].
  destruct (Py.rstrip c s) as [|b t] eqn:Hr.
  - rewrite append_nil_l in IH. destruct (Ascii.eqb_spec a c) as [->|Hne].
    + exists (S n). rewrite append_nil_l. cbn [repeat_char]. congruence.
    + exists n. rewrite append_cons, append_nil_l. congruence.
  - exists n. rewrite append_cons. congruence.
Qed.

Lemma rstrip_no_trailing (c : ascii) (s : string) :
  ends_with c (Py.rstrip c s) = false.
Proof.
  induction s as [|a s IH]; [done|]. simpl.
  destruct (Py.rstrip c s) as [|b t] eqn:Hr.
  - destruct (Ascii.eqb_spec a c) as [->|Hne]; [done|]. simpl.
    by apply Ascii.eqb_neq.
  - exact IH.
Qed.





(** The masks that stamp version and variant into a UUID sit below bit
    80: above it the UUID is the random draw. *)
Lemma uuid4_high_bits (rnd n : N) :
  80 ≤ n → N.shiftr (Py.uuid4 rnd) n = N.shiftr (rnd mod 2 ^ 128) n.
Proof.
  intros Hn. unfold Py.uuid4. cbv zeta.
  rewrite N.shiftr_lor, N.shiftr_ldiff, N.shiftr_lor, N.shiftr_ldiff.
  rewrite (N.shiftr_eq_0 (N.shiftl 49152 48)),
          (N.shiftr_eq_0 (N.shiftl 32768 48)),
          (N.shiftr_eq_0 (N.shiftl 61440 64)),
          (N.shiftr_eq_0 (N.shiftl 4 76));
    try (eapply N.lt_le_trans; [|exact Hn]; reflexivity).
  by rewrite !N.ldiff_0_r, !N.lor_0_r.
Qed.

Lemma pow16 (k : nat) : 16 ^ N.of_nat k = 2 ^ (4 * N.of_nat k).
Proof. by rewrite N.pow_mul_r. Qed.

(** The leading digits of a hexadecimal rendering are the rendering of
    the number without its low digits. *)
Lemma hex_digits_prefix (n m : nat) (u : N) :
  Py.prefix n (Py.hex_digits (n + m) u)
  = Py.hex_digits n (u / 16 ^ N.of_nat m).
Proof.
  unfold Py.prefix. induction n as [|n IH].
  - simpl. by destruct (Py.hex_digits m u).
  - cbn [Nat.add Py.hex_digits String.substring]. rewrite IH. f_equal.
    f_equal. f_equal.
    rewrite N.Div0.div_div, Nat2N.inj_add, N.pow_add_r. f_equal. lia.
Qed.

Lemma uuid4_version_nibble (rnd : N) : (Py.uuid4 rnd / 16 ^ N.of_nat 19) mod 16 = 4.
Proof.
  rewrite pow16, <- N.shiftr_div_pow2.
  change (4 * N.of_nat 19) with 76. change 16 with (2 ^ 4).
  rewrite <- N.land_ones. unfold Py.uuid4. cbv zeta.
  rewrite N.shiftr_lor, N.shiftr_ldiff, N.shiftr_lor, N.shiftr_ldiff.
  rewrite (N.shiftr_eq_0 (N.shiftl 49152 48)) by reflexivity.
  rewrite (N.shiftr_eq_0 (N.shiftl 32768 48)) by reflexivity.
  rewrite N.ldiff_0_r, N.lor_0_r.
  change (N.shiftr (N.shiftl 61440 64) 76) with 15.
  change (N.shiftr (N.shiftl 4 76) 76) with 4.
  change (N.ones 4) with 15.
  rewrite N.land_lor_distr_l, N.land_ldiff. reflexivity.
Qed.

(** X18. The identifiers are the leading random bits and nothing else:
    an Email id is the 12-digit hexadecimal rendering of the top 48 bits
    of the 16 random bytes, a Link id the 10-digit rendering of the top
    40 bits. The slices stop short of the UUID's version digit, the 13th,
    which is always 4; no fixed bit of the UUID reaches an id. *)
Theorem generated_ids_are_leading_random_bits (rnd : N) :
  new_email_id rnd = Py.hex_digits 12 ((rnd mod 2 ^ 128) / 2 ^ 80)
  ∧ new_link_id rnd = Py.hex_digits 10 ((rnd mod 2 ^ 128) / 2 ^ 88)
  ∧ String.get 12 (Py.uuid_hex (Py.uuid4 rnd)) = Some "4"%char.
Proof.
  unfold new_email_id, new_link_id, Py.uuid_hex. split; [|split].
  - change 32%nat with (12 + 20)%nat. rewrite hex_digits_prefix. f_equal.
    rewrite pow16, <- !N.shiftr_div_pow2.
    by apply uuid4_high_bits.
  - change 32%nat with (10 + 22)%nat. rewrite hex_digits_prefix. f_equal.
    rewrite pow16, <- !N.shiftr_div_pow2.
    by apply uuid4_high_bits.
  - change 32%nat with (13 + 19)%nat.
    cbn [Nat.add Py.hex_digits String.get].
    by rewrite uuid4_version_nibble.
Qed.

(** ** Recorded events in the detail view *)


